(** * CogniAnchor backend: agent loop, tool contracts, conversation memory
      and transcription selector

    A shallow embedding of

      - [app/services/langgraph_agent.py]  (agent graph, [run_agent],
        conversation memory),
      - [app/services/agent_tools.py]      (the four tools),
      - [app/services/stt_service.py] and
        [app/services/local_whisper_service.py] (speech to text),

    together with the properties the specification states about them.

    Conventions.  A Python [str] is a sequence of code points; here it is
    the [string] that holds its UTF-8 encoding, and [chars] reads the code
    points back.  What the code asks of the interpreter's Unicode tables
    ([str.lower], the decimal digits of [\d] and [int], the printable
    characters of [repr]) is the interface [UnicodeData]; white space is
    written out.  Code that can raise lives in the monad [M St], a state
    monad over the external world [St] whose result is either a raised
    [exception] or a value; the state survives a raise, as the effects of
    Python code do. *)

From Stdlib Require Import ZArith Ascii String List Lia Permutation Bool.
From Stdlib Require Import DecimalString.
From stdpp Require Import base option strings list gmap.

(** ** Exceptions and the monad of raising, stateful code *)

(** The exception classes the modelled code distinguishes in an [except]
    clause; every one of them is a subclass of [Exception]. *)
Inductive exception : Type :=
| ValueError (msg : string)
| FileNotFoundError (msg : string)
| OSError (msg : string)
| IndexError (msg : string)
| ValidationError (msg : string)
| GraphRecursionError (msg : string)
| Exception (msg : string).

(** [str(e)] *)
Definition str_exception (e : exception) : string :=
  match e with
  | ValueError m | FileNotFoundError m | OSError m | IndexError m
  | ValidationError m | GraphRecursionError m | Exception m => m
  end.

Definition is_ValueError (e : exception) : bool :=
  match e with ValueError _ => true | _ => false end.

Definition is_FileNotFoundError (e : exception) : bool :=
  match e with FileNotFoundError _ => true | _ => false end.

Definition M (St A : Type) : Type := St -> St * (exception + A).

Definition ret {St A} (a : A) : M St A := fun s => (s, inr a).

Definition raise {St A} (e : exception) : M St A := fun s => (s, inl e).

Definition bind {St A B} (c : M St A) (k : A -> M St B) : M St B :=
  fun s =>
    match c s with
    | (s', inl e) => (s', inl e)
    | (s', inr a) => k a s'
    end.

(** [try: body  except <class> as e: handler e]; [catches] tells which
    exceptions the clause names. *)
Definition try_except_on {St A} (catches : exception -> bool)
    (body : M St A) (handler : exception -> M St A) : M St A :=
  fun s =>
    match body s with
    | (s', inl e) => if catches e then handler e s' else (s', inl e)
    | (s', inr a) => (s', inr a)
    end.

(** [try: body  except Exception as e: handler e] *)
Definition try_except {St A} (body : M St A) (handler : exception -> M St A)
  : M St A :=
  try_except_on (fun _ => true) body handler.

(** [try: body  finally: cleanup] *)
Definition try_finally {St A} (body : M St A) (cleanup : M St unit) : M St A :=
  fun s =>
    match body s with
    | (s', r) =>
        match cleanup s' with
        | (s'', inl e) => (s'', inl e)
        | (s'', inr _) => (s'', r)
        end
    end.

(** Reading the world without changing it. *)
Definition gets {St A} (f : St -> A) : M St A := fun s => (s, inr (f s)).

Definition modify {St} (f : St -> St) : M St unit := fun s => (f s, inr tt).

Notation "x <- c ;; k" := (bind c (fun x => k))
  (at level 100, c at next level, right associativity).
Notation "c ;;; k" := (bind c (fun _ => k))
  (at level 100, right associativity).

(** A computation that never hands the value [bad] to its caller. *)
Definition never_returns {St A} (bad : A) (c : M St A) : Prop :=
  forall s, snd (c s) <> inr bad.

(** ** Strings *)

Definition LF : string := String (ascii_of_nat 10) EmptyString.
Definition DQUOTE : string := String (ascii_of_nat 34) EmptyString.

(** [sep.join(parts)] *)
Fixpoint join (sep : string) (parts : list string) : string :=
  match parts with
  | [] => ""
  | [p] => p
  | p :: rest => p +:+ sep +:+ join sep rest
  end.

(** [str(n)] for a non-negative integer *)
Definition str_nat (n : nat) : string :=
  NilEmpty.string_of_uint (Nat.to_uint n).

(** [needle in hay] on strings: [needle] occurs at some offset of [hay].
    (An encoded text occurs in another at the boundaries of characters
    only, so the test on the encodings is the test on the code points.) *)
Fixpoint contains (needle hay : string) : bool :=
  String.prefix needle hay ||
  match hay with
  | EmptyString => false
  | String _ hay' => contains needle hay'
  end.

(** *** Characters *)

(** The payload of a continuation byte [10xxxxxx]. *)
Definition continuation (c : ascii) : option N :=
  let n := N_of_ascii c in
  if (N.leb 128 n && N.ltb n 192)%bool then Some (n - 128)%N else None.

(** The characters of a text, each with its code point and its bytes.
    A byte that begins no well-formed sequence is a character of its own
    (code point [0xDC00 + byte]); no Python [str] encodes to one. *)
Fixpoint chars (s : string) : list (N * string) :=
  match s with
  | EmptyString => []
  | String c1 s1 =>
      let n1 := N_of_ascii c1 in
      let stray := ((56320 + n1)%N, String c1 EmptyString) :: chars s1 in
      if N.ltb n1 128 then (n1, String c1 EmptyString) :: chars s1
      else if N.ltb n1 194 then stray
      else if N.ltb n1 224 then
        match s1 with
        | String c2 s2 =>
            match continuation c2 with
            | Some b2 =>
                (((n1 - 192) * 64 + b2)%N, String c1 (String c2 EmptyString))
                  :: chars s2
            | None => stray
            end
        | EmptyString => stray
        end
      else if N.ltb n1 240 then
        match s1 with
        | String c2 (String c3 s3) =>
            match continuation c2, continuation c3 with
            | Some b2, Some b3 =>
                let cp := (((n1 - 224) * 64 + b2) * 64 + b3)%N in
                if N.leb 2048 cp
                then (cp, String c1 (String c2 (String c3 EmptyString))) :: chars s3
                else stray
            | _, _ => stray
            end
        | _ => stray
        end
      else if N.ltb n1 245 then
        match s1 with
        | String c2 (String c3 (String c4 s4)) =>
            match continuation c2, continuation c3, continuation c4 with
            | Some b2, Some b3, Some b4 =>
                let cp := ((((n1 - 240) * 64 + b2) * 64 + b3) * 64 + b4)%N in
                if (N.leb 65536 cp && N.ltb cp 1114112)%bool
                then (cp, String c1 (String c2 (String c3 (String c4 EmptyString))))
                       :: chars s4
                else stray
            | _, _, _ => stray
            end
        | _ => stray
        end
      else stray
  end.

(** The text of a sequence of characters. *)
Definition text_of (cs : list (N * string)) : string :=
  String.concat "" (List.map snd cs).

(** [Py_UNICODE_ISSPACE]: the characters that [str.strip()] removes and
    that the regular expression class [\s] matches. *)
Definition is_whitespace (c : N) : bool :=
  ((N.leb 9 c && N.leb c 13) || (N.leb 28 c && N.leb c 32)
   || N.eqb c 133 || N.eqb c 160 || N.eqb c 5760
   || (N.leb 8192 c && N.leb c 8202)
   || N.eqb c 8232 || N.eqb c 8233 || N.eqb c 8239 || N.eqb c 8287
   || N.eqb c 12288)%bool.

Fixpoint lstrip_chars (cs : list (N * string)) : list (N * string) :=
  match cs with
  | [] => []
  | c :: cs' => if is_whitespace (fst c) then lstrip_chars cs' else cs
  end.

(** [s.strip()] *)
Definition strip (s : string) : string :=
  text_of (rev (lstrip_chars (rev (lstrip_chars (chars s))))).

(** *** The Unicode tables of the interpreter *)

(** [c.lower()] for an ASCII letter; every other byte stays. *)
Definition ascii_lower_char (c : ascii) : ascii :=
  let n := nat_of_ascii c in
  if (Nat.leb 65 n && Nat.leb n 90)%bool then ascii_of_nat (n + 32) else c.

Fixpoint ascii_lower (s : string) : string :=
  match s with
  | EmptyString => EmptyString
  | String c s' => String (ascii_lower_char c) (ascii_lower s')
  end.

(** [s.isascii()] *)
Fixpoint isascii (s : string) : bool :=
  match s with
  | EmptyString => true
  | String c s' => Nat.ltb (nat_of_ascii c) 128 && isascii s'
  end.

(** The decimal value of an ASCII digit. *)
Definition ascii_decimal (c : N) : option nat :=
  if (N.leb 48 c && N.leb c 57)%bool then Some (N.to_nat (c - 48)) else None.

(** The printable characters of ASCII. *)
Definition ascii_printable (c : N) : bool :=
  (N.leb 32 c && N.ltb c 127)%bool.

(** The tables of the Unicode character database that the modelled code
    consults through the standard library.  They are large and they grow
    with the version of the interpreter, so they are an interface; what
    every version does on ASCII is fixed by the laws. *)
Class UnicodeData : Type := {
  (** [s.lower()] *)
  lower : string -> string;
  (** [Py_UNICODE_TODECIMAL]: the value of a decimal digit (category Nd),
      which is what [\d] matches and what [int] reads *)
  decimal : N -> option nat;
  (** [Py_UNICODE_ISPRINTABLE], which [repr] consults *)
  isprintable : N -> bool;
  lower_isascii : forall s, isascii s = true -> lower s = ascii_lower s;
  decimal_isascii : forall c, (c < 128)%N -> decimal c = ascii_decimal c;
  isprintable_isascii : forall c, (c < 128)%N -> isprintable c = ascii_printable c
}.

(** The tables cut down to ASCII: beyond it no character has a case, is a
    digit or is printable.  The examples, whose texts are ASCII, run with
    these tables; by the laws every other instance agrees with them
    there ([TablesFacts.strptime_isascii] and the lemmas after it). *)
#[global] Instance ascii_tables : UnicodeData := {
  lower := ascii_lower;
  decimal := ascii_decimal;
  isprintable := ascii_printable;
  lower_isascii := fun _ _ => eq_refl;
  decimal_isascii := fun _ _ => eq_refl;
  isprintable_isascii := fun _ _ => eq_refl
}.

(** [bool(s)] of a string: non-empty. *)
Definition truthy (s : string) : bool :=
  match s with EmptyString => false | _ => true end.

(** ** Conversation memory ([langgraph_agent.py], module level)

    [agent_conversations] is a module-level dict from patient identifier
    to a list of [{"role": ..., "content": ...}] dicts. *)

Record HistoryEntry : Type := mkEntry { role : string; content : string }.

Module Memory.

Definition agent_conversations_init : gmap string (list HistoryEntry) := ∅.

(** [get_agent_history]: creates the patient's list when absent and
    returns it. *)
Definition get_agent_history (patient_id : string)
    (agent_conversations : gmap string (list HistoryEntry))
  : gmap string (list HistoryEntry) * list HistoryEntry :=
  let convs :=
    match agent_conversations !! patient_id with
    | None => <[patient_id := []]> agent_conversations
    | Some _ => agent_conversations
    end in
  (convs, default [] (convs !! patient_id)).

(** [add_to_agent_history]: append, then keep the slice [[-10:]] when the
    list has grown past ten. *)
Definition add_to_agent_history (patient_id role content : string)
    (agent_conversations : gmap string (list HistoryEntry))
  : gmap string (list HistoryEntry) :=
  let convs :=
    match agent_conversations !! patient_id with
    | None => <[patient_id := []]> agent_conversations
    | Some _ => agent_conversations
    end in
  let appended := default [] (convs !! patient_id) ++ [mkEntry role content] in
  let convs := <[patient_id := appended]> convs in
  if Nat.ltb 10 (length appended)
  then <[patient_id := drop (length appended - 10) appended]> convs
  else convs.

(** What a caller can do with the memory. *)
Inductive MemoryOp : Type :=
| Add (patient_id role content : string)
| Get (patient_id : string).

Definition run_op (m : gmap string (list HistoryEntry)) (op : MemoryOp)
  : gmap string (list HistoryEntry) :=
  match op with
  | Add p r c => add_to_agent_history p r c m
  | Get p => fst (get_agent_history p m)
  end.

Definition run_ops (ops : list MemoryOp) (m : gmap string (list HistoryEntry))
  : gmap string (list HistoryEntry) :=
  fold_left run_op ops m.

(** The stored history of a patient (empty when the key is absent). *)
Definition history (patient_id : string) (m : gmap string (list HistoryEntry))
  : list HistoryEntry :=
  default [] (m !! patient_id).

(** The entries the operations [ops] append for [patient_id], in order. *)
Definition appended_to (patient_id : string) (ops : list MemoryOp)
  : list HistoryEntry :=
  flat_map (fun op =>
    match op with
    | Add p r c => if decide (p = patient_id) then [mkEntry r c] else []
    | Get _ => []
    end) ops.

(** The last [n] elements of a list: the slice [l[-n:]] for [n > 0]. *)
Definition last_n {A} (n : nat) (l : list A) : list A :=
  drop (length l - n) l.

(** Eleven appends for patient "p7", interleaved with a read and with an
    append for another patient. *)
Definition eleven_appends : list MemoryOp :=
  [Add "p7" "user" "m1"; Add "p7" "assistant" "m2"; Get "p7";
   Add "p7" "user" "m3"; Add "p9" "user" "other"; Add "p7" "assistant" "m4";
   Add "p7" "user" "m5"; Add "p7" "assistant" "m6"; Add "p7" "user" "m7";
   Add "p7" "assistant" "m8"; Add "p7" "user" "m9"; Add "p7" "assistant" "m10";
   Add "p7" "user" "m11"].

End Memory.

(** ** Speech to text ([stt_service.py], [local_whisper_service.py])

    The two transcription engines, the file system, the operating system
    and the source of random file names are the world of this component.
    The engines are arbitrary functions of the audio bytes: they may
    raise, and they may yield any text.  The operating system may refuse
    to tell the working directory, to make a directory, to write a file
    and to delete one, with any error. *)

Module Stt.

(** What [client.audio.transcriptions.create] hands back: an object with
    a [text] attribute, or (with [response_format="text"]) a bare value
    that [str] renders. *)
Inductive Transcription : Type :=
| WithText (text : string)
| Bare (rendered : string).

(** The calls to the operating system. *)
Inductive OsCall : Type :=
| Getcwd                        (* os.getcwd() *)
| Makedirs (path : string)      (* os.makedirs(path, exist_ok=True) *)
| OpenWrite (path : string)     (* open(path, "wb"), write, flush, fsync *)
| Unlink (path : string).       (* os.unlink(path) *)

Record World : Type := mkWorld {
  OPENAI_API_KEY : option string;          (* os.getenv("OPENAI_API_KEY") *)
  cwd : string;                            (* os.getcwd() *)
  fs : gmap string string;                 (* path -> contents, of the
                                              files the process can read *)
  os_error : OsCall -> option exception;   (* the calls the system refuses *)
  file_exists_error : string -> exception; (* FileExistsError for a path *)
  uuid_hex : nat -> string;                (* uuid.uuid4().hex, per call *)
  uuid_calls : nat;
  whisper_loadable : bool;                 (* whisper.load_model succeeds *)
  _model_loaded : bool;                    (* module global *)
  local_engine : string -> exception + string;
    (* whisper.load_audio, then model.transcribe(...)["text"] *)
  remote_engine : string -> exception + Transcription
    (* client.audio.transcriptions.create *)
}.

Definition set_fs (f : gmap string string -> gmap string string) (w : World)
  : World :=
  mkWorld (OPENAI_API_KEY w) (cwd w) (f (fs w)) (os_error w)
          (file_exists_error w) (uuid_hex w)
          (uuid_calls w) (whisper_loadable w) (_model_loaded w)
          (local_engine w) (remote_engine w).

Definition set_model_loaded (b : bool) (w : World) : World :=
  mkWorld (OPENAI_API_KEY w) (cwd w) (fs w) (os_error w)
          (file_exists_error w) (uuid_hex w)
          (uuid_calls w) (whisper_loadable w) b (local_engine w)
          (remote_engine w).

(** [USE_LOCAL_WHISPER = not OPENAI_API_KEY] *)
Definition USE_LOCAL_WHISPER (w : World) : bool :=
  match OPENAI_API_KEY w with
  | Some k => negb (truthy k)
  | None => true
  end.

(** [a.endswith("/")] *)
Fixpoint ends_with_slash (a : string) : bool :=
  match a with
  | EmptyString => false
  | String c EmptyString => Ascii.eqb c "/"
  | String _ a' => ends_with_slash a'
  end.

(** [os.path.join(a, b)] of [posixpath] *)
Definition path_join (a b : string) : string :=
  if String.prefix "/" b then b
  else if negb (truthy a) || ends_with_slash a then a +:+ b
  else a +:+ "/" +:+ b.

(** [uuid.uuid4().hex[:8]] *)
Definition uuid4_hex8 : M World string :=
  fun w =>
    (mkWorld (OPENAI_API_KEY w) (cwd w) (fs w) (os_error w)
             (file_exists_error w) (uuid_hex w)
             (S (uuid_calls w)) (whisper_loadable w) (_model_loaded w)
             (local_engine w) (remote_engine w),
     inr (String.substring 0 8 (uuid_hex w (uuid_calls w)))).

(** A call that the operating system may refuse. *)
Definition os_call (c : OsCall) : M World unit :=
  fun w =>
    match os_error w c with
    | Some e => (w, inl e)
    | None => (w, inr tt)
    end.

(** [os.getcwd()] *)
Definition getcwd : M World string :=
  os_call Getcwd ;;; gets cwd.

(** [os.makedirs(path, exist_ok=True)]: a file in the place of the
    directory is an error of its own. *)
Definition makedirs (path : string) : M World unit :=
  os_call (Makedirs path) ;;;
  fun w =>
    match fs w !! path with
    | Some _ => (w, inl (file_exists_error w path))
    | None => (w, inr tt)
    end.

(** [with open(path, "wb") as f: f.write(data); f.flush(); os.fsync(...)] *)
Definition write_file (path data : string) : M World unit :=
  os_call (OpenWrite path) ;;;
  modify (set_fs (fun files => <[path := data]> files)).

(** [with open(path, "rb") as f: f.read()] *)
Definition read_file (path : string) : M World string :=
  fun w =>
    match fs w !! path with
    | Some data => (w, inr data)
    | None => (w, inl (FileNotFoundError path))
    end.

(** [os.path.exists(path)] *)
Definition path_exists (path : string) : M World bool :=
  gets (fun w => bool_decide (is_Some (fs w !! path))).

(** [os.path.getsize(path)] *)
Definition getsize (path : string) : M World nat :=
  data <- read_file path ;; ret (String.length data).

(** [os.unlink(path)] *)
Definition unlink (path : string) : M World unit :=
  _ <- read_file path ;;
  os_call (Unlink path) ;;;
  modify (set_fs (fun files => delete path files)).

(** [load_whisper_model]: [Some tt] stands for the loaded model. *)
Definition load_whisper_model (model_name : string) : M World (option unit) :=
  fun w =>
    if _model_loaded w then (w, inr (Some tt))
    else if whisper_loadable w then (set_model_loaded true w, inr (Some tt))
    else (set_model_loaded false w, inr None).

(** [whisper.load_audio(temp_path)] followed by [model.transcribe]:
    the engine reads the file and yields [result["text"]]. *)
Definition whisper_transcribe (path : string) : M World string :=
  data <- read_file path ;;
  fun w => (w, local_engine w data).

(** The [finally] clause shared by both byte entry points. *)
Definition cleanup_temp (temp_path : string) : M World unit :=
  present <- path_exists temp_path ;;
  if present
  then try_except (unlink temp_path) (fun _ => ret tt)
  else ret tt.

(** [local_whisper_service.transcribe_audio_from_bytes].  The
    statements of the [try] block up to the assignment of [temp_path]
    come first: when one of them raises, the [except] clause returns
    [None] and the [finally] clause finds [temp_path] still [None]. *)
Definition transcribe_audio_from_bytes (audio_bytes : string)
    (model_name : string) : M World (option string) :=
  model <- load_whisper_model model_name ;;
  match model with
  | None => ret None
  | Some _ =>
      temp_path <-
        try_except
          (cwd <- getcwd ;;
           let temp_dir := path_join cwd "temp_whisper" in
           makedirs temp_dir ;;;
           hex <- uuid4_hex8 ;;
           ret (Some (path_join temp_dir ("whisper_" +:+ hex +:+ ".wav"))))
          (fun _ => ret None) ;;
      match temp_path with
      | None => ret None
      | Some temp_path =>
          try_finally
            (try_except
               (write_file temp_path audio_bytes ;;;
                present <- path_exists temp_path ;;
                if negb present then ret None
                else
                  raw <- whisper_transcribe temp_path ;;
                  let text := strip raw in
                  if negb (truthy text) || Nat.eqb (String.length text) 0
                  then ret None
                  else ret (Some text))
               (fun _ => ret None))
            (cleanup_temp temp_path)
      end
  end.

(** The OpenAI branch of [stt_service.transcribe_audio] extracts the
    text: the [text] attribute when there is one, [str(...)] otherwise. *)
Definition extract_text (t : Transcription) : string :=
  match t with
  | WithText text => text
  | Bare rendered => rendered
  end.

(** [stt_service.transcribe_audio] *)
Definition transcribe_audio (audio_file_path : string)
  : M World (option string) :=
  use_local <- gets USE_LOCAL_WHISPER ;;
  if use_local then
    try_except
      (try_except_on is_FileNotFoundError
         (audio_bytes <- read_file audio_file_path ;;
          transcribe_audio_from_bytes audio_bytes "base")
         (fun _ => ret None))
      (fun _ => ret None)
  else
    try_except
      (audio_file <- read_file audio_file_path ;;
       transcription <- (fun w => (w, remote_engine w audio_file)) ;;
       let text := extract_text transcription in
       ret (Some text))
      (fun e => if is_FileNotFoundError e then ret None else ret None).

(** [stt_service.transcribe_audio_bytes] *)
Definition transcribe_audio_bytes (audio_bytes : string)
  : M World (option string) :=
  cwd <- getcwd ;;
  let temp_dir := path_join cwd "temp_audio" in
  makedirs temp_dir ;;;
  hex <- uuid4_hex8 ;;
  let temp_path := path_join temp_dir ("voice_" +:+ hex +:+ ".wav") in
  try_finally
    (try_except
       (write_file temp_path audio_bytes ;;;
        present <- path_exists temp_path ;;
        if negb present then ret None
        else
          file_size <- getsize temp_path ;;
          if Nat.eqb file_size 0 then ret None
          else
            text <- transcribe_audio temp_path ;;
            ret text)
       (fun _ => ret None))
    (cleanup_temp temp_path).

(** [local_whisper_service.transcribe_audio_bytes_local] *)
Definition transcribe_audio_bytes_local (audio_bytes : string)
  : M World (option string) :=
  transcribe_audio_from_bytes audio_bytes "base".

(** A world with an online credential whose remote engine hears nothing. *)
Definition silent_online_world : World :=
  mkWorld (Some "sk-test") "/srv" ∅ (fun _ => None)
          (fun path => OSError ("[Errno 17] File exists: '" +:+ path +:+ "'"))
          (fun _ => "0123456789abcdef") 0
          true false (fun _ => inr "") (fun _ => inr (Bare "")).

(** The same machine without the credential. *)
Definition silent_offline_world : World :=
  mkWorld None "/srv" ∅ (fun _ => None)
          (fun path => OSError ("[Errno 17] File exists: '" +:+ path +:+ "'"))
          (fun _ => "0123456789abcdef") 0
          true false (fun _ => inr "   ") (fun _ => inr (Bare "")).

End Stt.

(** ** [datetime] and [datetime.strptime]

    [strptime] is modelled the way CPython implements it: the format is
    compiled to a regular expression (each directive to its pattern, a run
    of whitespace to [\s+], any other character to itself), matched from
    the start of the text ignoring case with the backtracking order of
    [re.match], and the text must be consumed entirely.  Only the
    directives the repository uses are present. *)

Module Datetime.

Record datetime : Type := mkDatetime {
  year : nat; month : nat; day : nat;
  hour : nat; minute : nat; second : nat; microsecond : nat
}.

Definition fields (d : datetime) : list nat :=
  [year d; month d; day d; hour d; minute d; second d; microsecond d].

Fixpoint compare_fields (a b : list nat) : comparison :=
  match a, b with
  | x :: a', y :: b' =>
      match Nat.compare x y with
      | Eq => compare_fields a' b'
      | c => c
      end
  | [], [] => Eq
  | [], _ :: _ => Lt
  | _ :: _, [] => Gt
  end.

Definition compare (a b : datetime) : comparison :=
  compare_fields (fields a) (fields b).

(** [a >= b] *)
Definition geb (a b : datetime) : bool :=
  match compare a b with Lt => false | _ => true end.

(** [a < b] *)
Definition ltb (a b : datetime) : bool :=
  match compare a b with Lt => true | _ => false end.

Definition is_leap (y : nat) : bool :=
  (Nat.eqb (y mod 4) 0 && negb (Nat.eqb (y mod 100) 0)) || Nat.eqb (y mod 400) 0.

Definition days_in_month (y m : nat) : nat :=
  match m with
  | 2 => if is_leap y then 29 else 28
  | 4 | 6 | 9 | 11 => 30
  | _ => 31
  end.

(** *** Regular expressions, as far as the format patterns need them *)

Inductive regex : Type :=
| Eps
| Lit (c : ascii)                      (* one character, ignoring case *)
| Class (p : N -> bool)                (* one character of a class *)
| Cat (r1 r2 : regex)
| Alt (r1 r2 : regex)                  (* r1|r2, r1 tried first *)
| Plus (p : N -> bool)                 (* cls+, greedy *)
| Group (name : string) (r : regex).   (* (?P<name>r) *)

(** The characters beyond ASCII that [re.IGNORECASE] takes for an ASCII
    letter: the dotted and the dotless i, the Kelvin sign, the long s. *)
Definition folds_to (x : N) : option ascii :=
  if (N.eqb x 304 || N.eqb x 305)%bool then Some "i"%char
  else if N.eqb x 8490 then Some "k"%char
  else if N.eqb x 383 then Some "s"%char
  else None.

(** A literal ASCII character of the pattern against a character of the
    text, ignoring case. *)
Definition lit_matches (c : ascii) (x : N) : bool :=
  if N.ltb x 128
  then Ascii.eqb (ascii_lower_char (ascii_of_N x)) (ascii_lower_char c)
  else match folds_to x with
       | Some c' => Ascii.eqb c' (ascii_lower_char c)
       | None => false
       end.

(** The remainders after one or more characters of the class, longest
    run first. *)
Fixpoint plus_rests (p : N -> bool) (s : list (N * string))
  : list (list (N * string)) :=
  match s with
  | [] => []
  | c :: s' => if p (fst c) then plus_rests p s' ++ [s'] else []
  end.

(** All the ways [r] matches a prefix of [s], in the order a
    backtracking matcher finds them: captured groups and remainder. *)
Fixpoint matches (r : regex) (s : list (N * string))
  : list (list (string * string) * list (N * string)) :=
  match r with
  | Eps => [([], s)]
  | Lit c =>
      match s with
      | c' :: s' => if lit_matches c (fst c') then [([], s')] else []
      | [] => []
      end
  | Class p =>
      match s with
      | c' :: s' => if p (fst c') then [([], s')] else []
      | [] => []
      end
  | Cat r1 r2 =>
      flat_map (fun m1 =>
        List.map (fun m2 => (fst m1 ++ fst m2, snd m2)) (matches r2 (snd m1)))
        (matches r1 s)
  | Alt r1 r2 => matches r1 s ++ matches r2 s
  | Plus p => List.map (fun rest => ([], rest)) (plus_rests p s)
  | Group name r1 =>
      List.map (fun m =>
        ((name, text_of (firstn (length s - length (snd m)) s)) :: fst m, snd m))
        (matches r1 s)
  end.

(** An ASCII range of a character class, [[lo-hi]]. *)
Definition in_range (lo hi : ascii) (c : N) : bool :=
  (N.leb (N_of_ascii lo) c && N.leb c (N_of_ascii hi))%bool.

Fixpoint lit_string (s : string) : regex :=
  match s with
  | EmptyString => Eps
  | String c s' => Cat (Lit c) (lit_string s')
  end.

Fixpoint alternatives (rs : list regex) : regex :=
  match rs with
  | [] => Class (fun _ => false)
  | [r] => r
  | r :: rs' => Alt r (alternatives rs')
  end.

Definition month_abbr : list string :=
  ["jan"; "feb"; "mar"; "apr"; "may"; "jun";
   "jul"; "aug"; "sep"; "oct"; "nov"; "dec"].

Fixpoint index_of (x : string) (l : list string) : option nat :=
  match l with
  | [] => None
  | y :: l' => if String.eqb x y then Some 0
               else option_map S (index_of x l')
  end.

Fixpoint lookup_group (name : string) (groups : list (string * string)) : option string :=
  match groups with
  | [] => None
  | (k, v) :: rest => if String.eqb k name then Some v else lookup_group name rest
  end.

Definition hex_digit (n : N) : ascii :=
  if N.ltb n 10 then ascii_of_N (48 + n) else ascii_of_N (87 + n).

(** [width] hexadecimal digits of [n], lower case. *)
Fixpoint hex (width : nat) (n : N) : string :=
  match width with
  | O => EmptyString
  | S width' => hex width' (n / 16) +:+ String (hex_digit (n mod 16)) EmptyString
  end.

Section WithTables.

Context `{UnicodeData}.

(** [\d] *)
Definition digit : regex := Class (fun c => bool_decide (is_Some (decimal c))).

(** The pattern of a directive ([TimeRE] in [_strptime.py]). *)
Definition directive_regex (d : ascii) : option regex :=
  if Ascii.eqb d "d" then
    (* 3[0-1]|[1-2]\d|0[1-9]|[1-9]| [1-9] *)
    Some (Group "d" (alternatives
      [Cat (Lit "3") (Class (in_range "0" "1"));
       Cat (Class (in_range "1" "2")) digit;
       Cat (Lit "0") (Class (in_range "1" "9"));
       Class (in_range "1" "9");
       Cat (Lit " ") (Class (in_range "1" "9"))]))
  else if Ascii.eqb d "b" then
    Some (Group "b" (alternatives (List.map lit_string month_abbr)))
  else if Ascii.eqb d "Y" then
    Some (Group "Y" (Cat digit (Cat digit (Cat digit digit))))
  else if Ascii.eqb d "I" then
    (* 1[0-2]|0[1-9]|[1-9] *)
    Some (Group "I" (alternatives
      [Cat (Lit "1") (Class (in_range "0" "2"));
       Cat (Lit "0") (Class (in_range "1" "9"));
       Class (in_range "1" "9")]))
  else if Ascii.eqb d "M" then
    (* [0-5]\d|\d *)
    Some (Group "M" (Alt (Cat (Class (in_range "0" "5")) digit) digit))
  else if Ascii.eqb d "p" then
    Some (Group "p" (Alt (lit_string "am") (lit_string "pm")))
  else None.

(** The regular expression of a format (an ASCII text; the formats of
    the repository are); [after_space] says that the previous format
    character was whitespace, already turned into [\s+]. *)
Fixpoint format_regex (after_space : bool) (format : string) : option regex :=
  match format with
  | EmptyString => Some Eps
  | String "%" (String d rest) =>
      match directive_regex d, format_regex false rest with
      | Some r, Some r' => Some (Cat r r')
      | _, _ => None
      end
  | String c rest =>
      if Nat.leb 128 (nat_of_ascii c) then None
      else if is_whitespace (N_of_ascii c) then
        match format_regex true rest with
        | Some r' => Some (if after_space then r' else Cat (Plus is_whitespace) r')
        | None => None
        end
      else
        match format_regex false rest with
        | Some r' => Some (Cat (Lit c) r')
        | None => None
        end
  end.

(** *** Converting the captured groups *)

(** [int(s)] of a captured number: decimal digits, after optional
    blanks. *)
Definition int_of (s : string) : nat :=
  fold_left (fun acc c =>
      match decimal (fst c) with
      | Some d => 10 * acc + d
      | None => acc
      end)
    (chars s) 0.

(** Python [repr] of a [str]. *)
Definition repr_char (quote : ascii) (c : N * string) : string :=
  let n := fst c in
  if N.eqb n 92 then "\\"
  else if N.eqb n (N_of_ascii quote) then String "\" (snd c)
  else if N.eqb n 10 then "\n"
  else if N.eqb n 13 then "\r"
  else if N.eqb n 9 then "\t"
  else if isprintable n then snd c
  else if N.ltb n 256 then "\x" +:+ hex 2 n
  else if N.ltb n 65536 then "\u" +:+ hex 4 n
  else "\U" +:+ hex 8 n.

Definition repr (s : string) : string :=
  let has c := existsb (Ascii.eqb c) (list_ascii_of_string s) in
  let quote : ascii :=
    if has "'"%char && negb (has (ascii_of_nat 34)) then ascii_of_nat 34 else "'"%char in
  String quote
    (String.concat "" (List.map (repr_char quote) (chars s))
     +:+ String quote EmptyString).

(** [datetime.strptime(data_string, format)] *)
Definition strptime (data_string format : string) : exception + datetime :=
  match format_regex false format with
  | None => inl (ValueError ("bad directive in format " +:+ repr format))
  | Some re =>
      match matches re (chars data_string) with
      | [] =>
          inl (ValueError ("time data " +:+ repr data_string +:+
                           " does not match format " +:+ repr format))
      | (groups, rest) :: _ =>
          if truthy (text_of rest)
          then inl (ValueError ("unconverted data remains: " +:+ text_of rest))
          else
            let group name := lookup_group name groups in
            let y := from_option int_of 1900 (group "Y") in
            let m :=
              match group "b" with
              | Some b => option_map S (index_of (lower b) month_abbr)
              | None => Some 1
              end in
            let d := from_option int_of 1 (group "d") in
            let h12 := from_option int_of 0 (group "I") in
            let h :=
              match group "p" with
              | None => h12
              | Some p =>
                  if String.eqb (lower p) "am"
                  then (if Nat.eqb h12 12 then 0 else h12)
                  else (if Nat.eqb h12 12 then 12 else h12 + 12)
              end in
            let mi := from_option int_of 0 (group "M") in
            match m with
            | None =>
                inl (ValueError (repr (lower (default "" (group "b")))
                                 +:+ " is not in list"))
            | Some m =>
                if Nat.eqb y 0 then inl (ValueError "year 0 is out of range")
                else if Nat.ltb (days_in_month y m) d
                then inl (ValueError "day is out of range for month")
                else inr (mkDatetime y m d h mi 0 0)
            end
      end
  end.

End WithTables.

(** Zero-padded decimal, [f"{n:0{width}d}"]. *)
Definition zero_pad (width n : nat) : string :=
  let digits := str_nat n in
  String.concat "" (repeat "0" (width - String.length digits)) +:+ digits.

(** [d.isoformat()] *)
Definition isoformat (d : datetime) : string :=
  zero_pad 4 (year d) +:+ "-" +:+ zero_pad 2 (month d) +:+ "-" +:+ zero_pad 2 (day d)
  +:+ "T" +:+ zero_pad 2 (hour d) +:+ ":" +:+ zero_pad 2 (minute d)
  +:+ ":" +:+ zero_pad 2 (second d)
  +:+ (if Nat.eqb (microsecond d) 0 then "" else "." +:+ zero_pad 6 (microsecond d)).

End Datetime.

(** ** The data store and the clock

    [app/services/supabase_client.py] is not among the sources, and the
    store behind it is a remote service.  The client is therefore an
    interface: every query the tools issue is an operation of [DataStore],
    free to change the world, to raise, and to answer with any rows.
    [MemStore] further down is the store that behaves: tables in memory,
    no failures. *)

Record Reminder : Type := mkReminder {
  rid : nat;            (* "id" *)
  pair_id : string;
  title : string;
  date : string;
  time : string
}.

Record Alert : Type := mkAlert {
  alert_pair_id : string;   (* "pair_id" *)
  alert_type : string;
  reason : string;
  timestamp : string;
  status : string
}.

Class DataStore (W : Type) : Type := {
  (** [get_supabase_client()] *)
  get_supabase_client : M W unit;
  (** [table("reminders").insert({pair_id, title, date, time}).execute().data] *)
  reminders_insert : string -> string -> string -> string -> M W (list Reminder);
  (** [table("reminders").select("*").eq("pair_id", p).execute().data] *)
  reminders_select : string -> M W (list Reminder);
  (** the same query with [.order("date", desc=False).order("time", desc=False)] *)
  reminders_select_ordered : string -> M W (list Reminder);
  (** [table("reminders").delete().eq("id", i).execute()] *)
  reminders_delete : nat -> M W unit;
  (** [table("emergency_alerts").insert(alert_data).execute()] *)
  emergency_alerts_insert : Alert -> M W unit
}.

Class Clock (W : Type) : Type := {
  (** [datetime.now()] *)
  datetime_now : W -> Datetime.datetime
}.

(** ** The four tools ([agent_tools.py]) *)

Module Tools.
Section Tools.

Context `{UnicodeData} {W : Type} `{DataStore W} `{Clock W}.

Definition REMINDER_FORMAT : string := "%d %b %Y %I:%M %p".

(** [datetime.strptime(f"{date} {time}", "%d %b %Y %I:%M %p")] *)
Definition parse_reminder_datetime (date time : string)
  : exception + Datetime.datetime :=
  Datetime.strptime (date +:+ " " +:+ time) REMINDER_FORMAT.

Definition create_reminder (pair_id title date time : string) : M W string :=
  try_except
    (match parse_reminder_datetime date time with
     | inl e =>
         if is_ValueError e then
           ret ("Error: Invalid date/time format. Please use 'dd MMM yyyy' for date and 'hh:mm AM/PM' for time. Error: "
                +:+ str_exception e)
         else raise e
     | inr _ =>
         get_supabase_client ;;;
         data <- reminders_insert pair_id title date time ;;
         match data with
         | [] => ret "Error: Failed to create reminder in database"
         | _ :: _ =>
             ret ("Reminder created successfully! I'll remind you about '"
                  +:+ title +:+ "' on " +:+ date +:+ " at " +:+ time +:+ ".")
         end
     end)
    (fun e => ret ("Error: Failed to create reminder - " +:+ str_exception e)).

(** One turn of the loop that filters out expired reminders; a reminder
    whose date and time do not parse is skipped. *)
Definition keep_upcoming (now : Datetime.datetime)
    (upcoming_reminders : list Reminder) (reminder : Reminder) : list Reminder :=
  match parse_reminder_datetime (date reminder) (time reminder) with
  | inr reminder_dt =>
      if Datetime.geb reminder_dt now
      then upcoming_reminders ++ [reminder]
      else upcoming_reminders
  | inl _ => upcoming_reminders
  end.

(** [f"{idx}. {reminder['title']} - {reminder['date']} at {reminder['time']}"] *)
Definition reminder_line (idx : nat) (reminder : Reminder) : string :=
  str_nat idx +:+ ". " +:+ title reminder +:+ " - " +:+ date reminder
  +:+ " at " +:+ time reminder.

Definition list_reminders (pair_id : string) : M W string :=
  try_except
    (get_supabase_client ;;;
     data <- reminders_select_ordered pair_id ;;
     match data with
     | [] => ret "You don't have any reminders set right now."
     | _ :: _ =>
         now <- gets datetime_now ;;
         let upcoming_reminders := fold_left (keep_upcoming now) data [] in
         match upcoming_reminders with
         | [] => ret "All your reminders have passed. You don't have any upcoming reminders."
         | _ :: _ =>
             let reminder_list :=
               imap (fun i reminder => reminder_line (S i) reminder)
                    upcoming_reminders in
             ret ("You have " +:+ str_nat (length upcoming_reminders)
                  +:+ " upcoming reminder(s):" +:+ LF +:+ join LF reminder_list)
         end
     end)
    (fun e => ret ("Error: Failed to fetch reminders - " +:+ str_exception e)).

(** [reminder_title.lower() in r["title"].lower()] *)
Definition title_matches (reminder_title : string) (r : Reminder) : bool :=
  contains (lower reminder_title) (lower (title r)).

Definition delete_reminder (pair_id reminder_title : string) : M W string :=
  try_except
    (get_supabase_client ;;;
     data <- reminders_select pair_id ;;
     match data with
     | [] => ret "You don't have any reminders to delete."
     | _ :: _ =>
         let matching_reminders := List.filter (title_matches reminder_title) data in
         match matching_reminders with
         | [] =>
             ret ("I couldn't find a reminder matching '" +:+ reminder_title
                  +:+ "'. Please check the reminder title and try again.")
         | reminder_to_delete :: [] =>
             reminders_delete (rid reminder_to_delete) ;;;
             ret ("I've deleted the reminder '" +:+ title reminder_to_delete
                  +:+ "' scheduled for " +:+ date reminder_to_delete
                  +:+ " at " +:+ time reminder_to_delete +:+ ".")
         | _ :: _ :: _ =>
             let titles := List.map title matching_reminders in
             ret ("Found multiple reminders matching '" +:+ reminder_title
                  +:+ "': " +:+ join ", " titles +:+ ". Please be more specific.")
         end
     end)
    (fun e => ret ("Error: Failed to delete reminder - " +:+ str_exception e)).

Definition send_emergency_alert (pair_id reason : string) : M W string :=
  try_except
    (get_supabase_client ;;;
     now <- gets datetime_now ;;
     let alert_data :=
       mkAlert pair_id "emergency" reason (Datetime.isoformat now) "pending" in
     try_except (emergency_alerts_insert alert_data) (fun _ => ret tt) ;;;
     ret "I've notified your caregiver about this situation. Help is on the way. Please stay calm.")
    (fun _ => ret "I'm here with you. Let me help you feel safe.").

End Tools.
End Tools.

(** ** The store that behaves: tables in memory *)

Module MemStore.

(** Modelled from the spec: the data store behind [get_supabase_client]
    (section 6, "Data store interface": insert, select with filter and
    order, delete by id; tables [reminders] and [emergency_alerts]).  The
    fields of a reminder are text, stored and returned as they were
    inserted (section 3: date "25 Dec 2024", time "hour:minute + AM/PM"),
    which is what [list_reminders] relies on when it parses them. *)
Record t : Type := mk {
  reminders : list Reminder;
  emergency_alerts : list Alert;
  next_id : nat;
  clock : Datetime.datetime
}.

(** Modelled from the spec: [order(field, asc)] of the data store
    interface, for the two text fields: rows compare by the text of
    [date], then by the text of [time]. *)
Definition order_leb (a b : Reminder) : bool :=
  match String.compare (date a) (date b) with
  | Lt => true
  | Gt => false
  | Eq => String.leb (time a) (time b)
  end.

Fixpoint insert_sorted (r : Reminder) (sorted : list Reminder) : list Reminder :=
  match sorted with
  | [] => [r]
  | x :: rest => if order_leb r x then r :: sorted else x :: insert_sorted r rest
  end.

Definition order_by_date_time (rows : list Reminder) : list Reminder :=
  fold_right insert_sorted [] rows.

Definition of_pair (p : string) (rows : list Reminder) : list Reminder :=
  List.filter (fun r => String.eqb (pair_id r) p) rows.

Definition insert (pair_id title date time : string) : M t (list Reminder) :=
  fun s =>
    let row := mkReminder (next_id s) pair_id title date time in
    (mk (reminders s ++ [row]) (emergency_alerts s) (S (next_id s)) (clock s),
     inr [row]).

Definition delete_id (i : nat) (s : t) : t :=
  mk (List.filter (fun r => negb (Nat.eqb (rid r) i)) (reminders s))
     (emergency_alerts s) (next_id s) (clock s).

Definition insert_alert (a : Alert) (s : t) : t :=
  mk (reminders s) (emergency_alerts s ++ [a]) (next_id s) (clock s).

(** Modelled from the spec: the operations of the data store interface
    on the tables in memory; none of them fails. *)
#[global] Instance data_store : DataStore t := {
  get_supabase_client := ret tt;
  reminders_insert := insert;
  reminders_select p := gets (fun s => of_pair p (reminders s));
  reminders_select_ordered p :=
    gets (fun s => order_by_date_time (of_pair p (reminders s)));
  reminders_delete i := modify (delete_id i);
  emergency_alerts_insert a := modify (insert_alert a)
}.

#[global] Instance the_clock : Clock t := { datetime_now := clock }.

End MemStore.

(** ** The agent ([langgraph_agent.py]) *)

(** A tool-invocation request of the model: tool name, arguments, id. *)
Record ToolCall : Type := mkToolCall {
  tc_name : string;
  tc_args : list (string * string);
  tc_id : string
}.

Inductive Message : Type :=
| SystemMessage (content : string)   (* the dict with role "system" *)
| HumanMessage (content : string)
| AIMessage (content : string) (tool_calls : list ToolCall)
| ToolMessage (content : string) (name : string) (tool_call_id : string).

(** The model provider is an interface as well: the environment variable
    with its key, the construction of the client with the tools bound, and
    [invoke], which may raise and may answer any assistant message (text
    and tool-invocation requests). *)
Class ModelProvider (W : Type) : Type := {
  (** [os.getenv("GEMINI_API_KEY")] *)
  GEMINI_API_KEY : W -> option string;
  (** [ChatGoogleGenerativeAI(...).bind_tools(tools)] *)
  ChatGoogleGenerativeAI : string -> M W unit;
  (** [llm_with_tools.invoke(messages)] *)
  llm_invoke : list Message -> M W (string * list ToolCall)
}.

(** What happened during a run, in order: the model turns with the message
    sequence each one was given, and the tool executions.  The trace is
    bookkeeping of the model, not state of the program. *)
Inductive Event : Type :=
| ModelTurn (input : list Message) (outcome : exception + Message)
| ToolRun (call : ToolCall) (outcome : exception + string).

Definition is_tool_run (ev : Event) : Prop :=
  match ev with ToolRun _ _ => True | ModelTurn _ _ => False end.

Record Run (W : Type) : Type := mkRun { world : W; trace : list Event }.
Arguments mkRun {W} _ _.
Arguments world {W} _.
Arguments trace {W} _.

(** How the graph library treats the [messages] key of the state.  A key
    whose annotation carries a two-argument callable is folded with it
    ([operator.add]: the update is appended); any other key keeps the last
    value written.  [AgentState.messages] is annotated with a plain string, so
    the library picks [LastValue] for it; the engine below takes the
    discipline as a parameter, together with whether the tool node turns
    an exception of a tool into a tool message. *)
Inductive Reducer : Type := LastValue | OperatorAdd.

Record LangGraph : Type := mkLangGraph {
  messages_channel : Reducer;
  handle_tool_errors : bool
}.

(** The library as [AgentState] and [ToolNode(tools)] configure it. *)
Definition langgraph_defaults : LangGraph := mkLangGraph LastValue true.

(** The number of steps a graph may take before the library raises
    [GraphRecursionError]. *)
Definition recursion_limit : nat := 25.

Module Agent.

Record AgentState : Type := mkState {
  messages : list Message;
  pair_id : string;
  patient_id : string
}.

Definition AGENT_SYSTEM_PROMPT : string :=
"You are a compassionate AI companion for patients with cognitive challenges (dementia/Alzheimer's).

Your role:
- Provide warm, patient, and clear communication
- Help manage daily tasks through reminders
- Offer emotional support and reassurance
- Monitor for signs of distress or danger
- Use simple, short sentences (maximum 2 sentences per response)

Available Tools:
1. create_reminder: Set reminders for medication, appointments, tasks
2. list_reminders: Show upcoming reminders
3. delete_reminder: Cancel/remove reminders
4. send_emergency_alert: Alert caregiver if patient is in danger (USE SPARINGLY - only for real emergencies)

Guidelines:
- Always use tools when the patient asks for reminder-related actions
- Be proactive: If patient mentions taking medicine or appointments, suggest creating a reminder
- Never show frustration or correct the patient harshly
- Validate their feelings and provide reassurance
- For emergency situations (fall, pain, severe confusion), use send_emergency_alert tool
- Keep responses brief and warm

Examples:
- Patient: " +:+ DQUOTE +:+ "Remind me to take my pills at 8pm" +:+ DQUOTE +:+ " -> Use create_reminder tool
- Patient: " +:+ DQUOTE +:+ "What do I need to do today?" +:+ DQUOTE +:+ " -> Use list_reminders tool
- Patient: " +:+ DQUOTE +:+ "Cancel my appointment reminder" +:+ DQUOTE +:+ " -> Use delete_reminder tool
- Patient: " +:+ DQUOTE +:+ "I fell and I can't get up" +:+ DQUOTE +:+ " -> Use send_emergency_alert tool immediately
- Patient: " +:+ DQUOTE +:+ "I'm feeling sad" +:+ DQUOTE +:+ " -> Provide emotional support (no tool needed)
".

Definition MODEL_ERROR_REPLY : string :=
  "I'm having trouble right now. Let me try to help you anyway.".

Definition FALLBACK_REPLY : string :=
  "I'm here to help. What would you like to know?".

Definition RUN_ERROR_REPLY : string :=
  "I'm having some trouble right now, but I'm here with you. How can I help?".

Definition tool_names : list string :=
  ["create_reminder"; "list_reminders"; "delete_reminder"; "send_emergency_alert"].

(** The outgoing edges of the [agent] node. *)
Inductive Edge : Type := tools | END.

Inductive Node : Type := agent_node | tools_node.

Section Agent.

Context `{UnicodeData} {W : Type} `{DataStore W} `{Clock W} `{ModelProvider W}.
Variable lib : LangGraph.

(** Running code of the outside world inside a run. *)
Definition lift {A} (c : M W A) : M (Run W) A :=
  fun r =>
    match c (world r) with
    | (w', out) => (mkRun w' (trace r), out)
    end.

Definition create_agent_llm : M W unit :=
  try_except
    (gemini_api_key <- gets GEMINI_API_KEY ;;
     match gemini_api_key with
     | None => raise (ValueError "GEMINI_API_KEY not found in environment")
     | Some key =>
         if negb (truthy key)
         then raise (ValueError "GEMINI_API_KEY not found in environment")
         else ChatGoogleGenerativeAI key
     end)
    (fun e => raise e).

(** [llm_with_tools.invoke(messages)], recorded in the trace. *)
Definition invoke_llm (input : list Message) : M (Run W) Message :=
  fun r =>
    match llm_invoke input (world r) with
    | (w', inl e) => (mkRun w' (trace r ++ [ModelTurn input (inl e)]), inl e)
    | (w', inr (text, calls)) =>
        let response := AIMessage text calls in
        (mkRun w' (trace r ++ [ModelTurn input (inr response)]), inr response)
    end.

(** The [agent] node; its value is the update [{"messages": [...]}]. *)
Definition call_agent (state : AgentState) : M (Run W) (list Message) :=
  try_except
    (lift create_agent_llm ;;;
     let messages := [SystemMessage AGENT_SYSTEM_PROMPT] ++ messages state in
     response <- invoke_llm messages ;;
     ret [response])
    (fun _ => ret [AIMessage MODEL_ERROR_REPLY []]).

(** The conditional edge after the [agent] node. *)
Definition should_continue (state : AgentState) : exception + Edge :=
  match last (messages state) with
  | None => inl (IndexError "list index out of range")
  | Some (AIMessage _ (_ :: _)) => inr tools
  | Some _ => inr END
  end.

(** *** The prebuilt tool node *)

Fixpoint lookup_arg (k : string) (args : list (string * string)) : option string :=
  match args with
  | [] => None
  | (k', v) :: rest => if String.eqb k' k then Some v else lookup_arg k rest
  end.

(** An argument of a tool call; the schema of every tool makes all of
    its arguments required. *)
Definition arg (call : ToolCall) (k : string) : M W string :=
  match lookup_arg k (tc_args call) with
  | Some v => ret v
  | None => raise (ValidationError (k +:+ ": Field required"))
  end.

(** [tools_by_name[call["name"]].invoke(call)] *)
Definition invoke_tool (call : ToolCall) : M W string :=
  if String.eqb (tc_name call) "create_reminder" then
    p <- arg call "pair_id" ;; t <- arg call "title" ;;
    d <- arg call "date" ;; tm <- arg call "time" ;;
    Tools.create_reminder p t d tm
  else if String.eqb (tc_name call) "list_reminders" then
    p <- arg call "pair_id" ;; Tools.list_reminders p
  else if String.eqb (tc_name call) "delete_reminder" then
    p <- arg call "pair_id" ;; t <- arg call "reminder_title" ;;
    Tools.delete_reminder p t
  else if String.eqb (tc_name call) "send_emergency_alert" then
    p <- arg call "pair_id" ;; r <- arg call "reason" ;;
    Tools.send_emergency_alert p r
  else raise (Exception ("no tool named " +:+ tc_name call)).

Definition repr_exception (e : exception) : string :=
  match e with
  | ValueError m => "ValueError(" +:+ Datetime.repr m +:+ ")"
  | FileNotFoundError m => "FileNotFoundError(" +:+ Datetime.repr m +:+ ")"
  | OSError m => "OSError(" +:+ Datetime.repr m +:+ ")"
  | IndexError m => "IndexError(" +:+ Datetime.repr m +:+ ")"
  | ValidationError m => "ValidationError(" +:+ Datetime.repr m +:+ ")"
  | GraphRecursionError m => "GraphRecursionError(" +:+ Datetime.repr m +:+ ")"
  | Exception m => "Exception(" +:+ Datetime.repr m +:+ ")"
  end.

(** One request of the batch: a request for a tool that does not exist
    is answered without running anything; otherwise the tool runs (once)
    and its text, or its exception when the node handles tool errors,
    becomes the content of the tool message. *)
Definition run_tool_call (call : ToolCall) : M (Run W) Message :=
  if negb (existsb (String.eqb (tc_name call)) tool_names) then
    ret (ToolMessage ("Error: " +:+ tc_name call +:+ " is not a valid tool, try one of ["
                      +:+ join ", " tool_names +:+ "].")
                     (tc_name call) (tc_id call))
  else
    fun r =>
      match invoke_tool call (world r) with
      | (w', inr text) =>
          (mkRun w' (trace r ++ [ToolRun call (inr text)]),
           inr (ToolMessage text (tc_name call) (tc_id call)))
      | (w', inl e) =>
          let r' := mkRun w' (trace r ++ [ToolRun call (inl e)]) in
          if handle_tool_errors lib
          then (r', inr (ToolMessage ("Error: " +:+ repr_exception e +:+ LF
                                      +:+ " Please fix your mistakes.")
                                     (tc_name call) (tc_id call)))
          else (r', inl e)
      end.

Fixpoint run_tool_calls (calls : list ToolCall) : M (Run W) (list Message) :=
  match calls with
  | [] => ret []
  | call :: rest =>
      m <- run_tool_call call ;;
      ms <- run_tool_calls rest ;;
      ret (m :: ms)
  end.

(** The [tools] node, [ToolNode(tools)]: it serves the requests of the
    last message; its value is the update [{"messages": [...]}]. *)
Definition tool_node (state : AgentState) : M (Run W) (list Message) :=
  match last (messages state) with
  | Some (AIMessage _ calls) => run_tool_calls calls
  | _ => raise (ValueError "Last message is not an AIMessage")
  end.

(** *** The compiled graph *)

(** Writing a node's update to the [messages] key. *)
Definition apply_update (state : AgentState) (update : list Message) : AgentState :=
  mkState
    (match messages_channel lib with
     | LastValue => update
     | OperatorAdd => messages state ++ update
     end)
    (pair_id state) (patient_id state).

(** [steps] is what is left of the recursion limit; every node that
    runs takes one step. *)
Fixpoint run_graph (steps : nat) (node : Node) (state : AgentState)
  : M (Run W) AgentState :=
  match steps with
  | O => raise (GraphRecursionError "Recursion limit reached without hitting a stop condition.")
  | S steps' =>
      match node with
      | agent_node =>
          update <- call_agent state ;;
          let state' := apply_update state update in
          match should_continue state' with
          | inl e => raise e
          | inr tools => run_graph steps' tools_node state'
          | inr END => ret state'
          end
      | tools_node =>
          update <- tool_node state ;;
          run_graph steps' agent_node (apply_update state update)
      end
  end.

(** [create_agent_graph()]: needs the model client for the tool list. *)
Definition create_agent_graph : M W unit :=
  try_except create_agent_llm (fun e => raise e).

(** [agent.invoke(initial_state)] *)
Definition agent_invoke (initial_state : AgentState) : M (Run W) AgentState :=
  run_graph recursion_limit agent_node initial_state.

(** The loop over [conversation_history]. *)
Definition add_history_message (messages : list Message) (msg : HistoryEntry)
  : list Message :=
  if String.eqb (role msg) "user" then messages ++ [HumanMessage (content msg)]
  else if String.eqb (role msg) "assistant" then messages ++ [AIMessage (content msg) []]
  else messages.

(** The loop over [reversed(final_messages)]: the first assistant
    message with non-empty content. *)
Fixpoint first_ai_content (reversed_messages : list Message) : option string :=
  match reversed_messages with
  | [] => None
  | AIMessage text _ :: rest =>
      if truthy text then Some text else first_ai_content rest
  | _ :: rest => first_ai_content rest
  end.

(** The state [run_agent] starts the graph in: the history, turned
    into messages, then the current message. *)
Definition build_initial_state (patient_id pair_id message : string)
    (conversation_history : list HistoryEntry) : AgentState :=
  let messages := fold_left add_history_message conversation_history [] in
  let messages := messages ++ [HumanMessage message] in
  mkState messages pair_id patient_id.

(** [run_agent]; an absent [conversation_history] is the empty list. *)
Definition run_agent (patient_id pair_id message : string)
    (conversation_history : list HistoryEntry) : M (Run W) string :=
  try_except
    (lift create_agent_graph ;;;
     let initial_state :=
       build_initial_state patient_id pair_id message conversation_history in
     final_state <- agent_invoke initial_state ;;
     let final_messages := Agent.messages final_state in
     match first_ai_content (rev final_messages) with
     | Some text => ret text
     | None => ret FALLBACK_REPLY
     end)
    (fun _ => ret RUN_ERROR_REPLY).

End Agent.
End Agent.

(** ** A world to run the agent in: the in-memory store, an environment
    and a stubbed model provider that plays a script, one entry per model
    turn. *)

Module Sim.

Record t : Type := mk {
  store : MemStore.t;
  gemini_api_key : option string;
  script : list (exception + (string * list ToolCall))
}.

(** An operation of the store, run on the store of the world. *)
Definition on_store {A} (c : M MemStore.t A) : M t A :=
  fun w =>
    match c (store w) with
    | (s', out) => (mk s' (gemini_api_key w) (script w), out)
    end.

(** The stub answers with the next entry of its script, whatever it is
    asked; an exhausted script raises. *)
Definition play (input : list Message) : M t (string * list ToolCall) :=
  fun w =>
    match script w with
    | [] => (w, inl (Exception "stub: no response left"))
    | out :: rest => (mk (store w) (gemini_api_key w) rest, out)
    end.

(** Modelled from the spec: the operations of the data store interface
    on the tables in memory; none of them fails. *)
#[global] Instance data_store : DataStore t := {
  get_supabase_client := on_store get_supabase_client;
  reminders_insert p ti d tm := on_store (reminders_insert p ti d tm);
  reminders_select p := on_store (reminders_select p);
  reminders_select_ordered p := on_store (reminders_select_ordered p);
  reminders_delete i := on_store (reminders_delete i);
  emergency_alerts_insert a := on_store (emergency_alerts_insert a)
}.

#[global] Instance the_clock : Clock t := {
  datetime_now w := datetime_now (store w)
}.

#[global] Instance provider : ModelProvider t := {
  GEMINI_API_KEY := gemini_api_key;
  ChatGoogleGenerativeAI _ := ret tt;
  llm_invoke := play
}.

Definition fresh_store : MemStore.t :=
  MemStore.mk [] [] 1 (Datetime.mkDatetime 2024 12 24 9 30 0 0).

(** The request of the specification's round trip. *)
Definition pills_call : ToolCall :=
  mkToolCall "create_reminder"
    [("pair_id", "pair-1"); ("title", "Take medicine");
     ("date", "25 Dec 2024"); ("time", "08:00 PM")]
    "call-1".

End Sim.

(** ** The specification's words, and stores for the examples *)

Module SpecSide.
Section SpecSide.

Context `{UnicodeData}.

(** "Parses under the fixed formats 'dd Mon yyyy' and 'hh:mm AM/PM'":
    the date under the first format and the time under the second. *)
Definition parses_date (date : string) : bool :=
  match Datetime.strptime date "%d %b %Y" with inr _ => true | inl _ => false end.

Definition parses_time (time : string) : bool :=
  match Datetime.strptime time "%I:%M %p" with inr _ => true | inl _ => false end.

(** "Case-insensitively substring-matches": the lower-cased fragment
    occurs somewhere inside the lower-cased title. *)
Definition ci_substring (fragment title : string) : Prop :=
  exists before after, lower title = before +:+ lower fragment +:+ after.

(** "Not strictly before now": the date and time parse, and the parsed
    moment is not earlier than [now]. *)
Definition is_upcoming (now : Datetime.datetime) (r : Reminder) : bool :=
  match Tools.parse_reminder_datetime (date r) (time r) with
  | inr dt => negb (Datetime.ltb dt now)
  | inl _ => false
  end.

(** "Ascending chronological order of the parsed (date, time) values". *)
Fixpoint chronological (rs : list Reminder) : bool :=
  match rs with
  | r1 :: ((r2 :: _) as rest) =>
      match Tools.parse_reminder_datetime (date r1) (time r1),
            Tools.parse_reminder_datetime (date r2) (time r2) with
      | inr d1, inr d2 => negb (Datetime.ltb d2 d1) && chronological rest
      | _, _ => false
      end
  | _ => true
  end.

End SpecSide.
End SpecSide.

Module Examples.

Definition morning : Datetime.datetime := Datetime.mkDatetime 2024 1 1 9 0 0 0.

Definition empty_store : MemStore.t := MemStore.mk [] [] 1 morning.

Definition dentist : Reminder :=
  mkReminder 1 "pair-1" "Dentist" "25 Dec 2024" "08:00 AM".

Definition pills : Reminder :=
  mkReminder 2 "pair-1" "Pills" "01 Feb 2025" "08:00 AM".

(** Two reminders of one pair, stored in chronological order. *)
Definition two_reminders : MemStore.t :=
  MemStore.mk [dentist; pills] [] 3 morning.

End Examples.

(** ** Scripts for the stubbed provider *)

Module Scripts.

(** One tool request, then a plain answer. *)
Definition round_trip_world : Sim.t :=
  Sim.mk Sim.fresh_store (Some "test-key")
    [inr ("", [Sim.pills_call]);
     inr ("Your reminder is set for 8 PM tomorrow.", [])].

(** One tool request, then an answer with empty text and no request. *)
Definition empty_answer_world : Sim.t :=
  Sim.mk Sim.fresh_store (Some "test-key")
    [inr ("", [Sim.pills_call]); inr ("", [])].

(** One tool request, then the provider raises. *)
Definition failing_world : Sim.t :=
  Sim.mk Sim.fresh_store (Some "test-key")
    [inr ("", [Sim.pills_call]); inl (Exception "503 Service Unavailable")].

(** A provider that asks for the list of reminders on every turn. *)
Definition list_call : ToolCall :=
  mkToolCall "list_reminders" [("pair_id", "pair-1")] "call-n".

Definition insistent_world : Sim.t :=
  Sim.mk Sim.fresh_store (Some "test-key") (repeat (inr ("", [list_call])) 40).

End Scripts.

(** ** Tactics *)

(** Unfolding the monad and the operations of the in-memory store. *)
Ltac run_store :=
  cbv beta iota zeta delta
    [bind ret raise gets modify try_except try_except_on
     get_supabase_client reminders_insert reminders_select
     reminders_select_ordered reminders_delete emergency_alerts_insert
     datetime_now MemStore.data_store MemStore.the_clock MemStore.insert].


(** ** Further definitions: the remaining transcription path, and the
    notions the properties below are stated with *)

Module Tables.

(** Characters of ASCII. *)
Definition ascii_char (c : N * string) : Prop :=
  (fst c < 128)%N /\ isascii (snd c) = true.

(** Two patterns that differ at most in what their classes say of the
    characters beyond ASCII. *)
Inductive agree : Datetime.regex -> Datetime.regex -> Prop :=
| agree_Eps : agree Datetime.Eps Datetime.Eps
| agree_Lit c : agree (Datetime.Lit c) (Datetime.Lit c)
| agree_Class p p' :
    (forall c, (c < 128)%N -> p c = p' c) ->
    agree (Datetime.Class p) (Datetime.Class p')
| agree_Cat r1 r1' r2 r2' :
    agree r1 r1' -> agree r2 r2' ->
    agree (Datetime.Cat r1 r2) (Datetime.Cat r1' r2')
| agree_Alt r1 r1' r2 r2' :
    agree r1 r1' -> agree r2 r2' ->
    agree (Datetime.Alt r1 r2) (Datetime.Alt r1' r2')
| agree_Plus p p' :
    (forall c, (c < 128)%N -> p c = p' c) ->
    agree (Datetime.Plus p) (Datetime.Plus p')
| agree_Group name r r' :
    agree r r' -> agree (Datetime.Group name r) (Datetime.Group name r').

Definition agree_option (o o' : option Datetime.regex) : Prop :=
  match o, o' with
  | Some r, Some r' => agree r r'
  | None, None => True
  | _, _ => False
  end.

(** What a match is made of, on an ASCII text: ASCII group texts and an
    ASCII remainder. *)
Definition ascii_match (m : list (string * string) * list (N * string)) : Prop :=
  Forall (fun g => isascii (snd g) = true) (fst m) /\ Forall ascii_char (snd m).

End Tables.

Module SttMore.
Import Stt.

(** [local_whisper_service.transcribe_audio_local]: the model reads the
    file itself; the text is stripped and returned as it is. *)
Definition transcribe_audio_local (audio_file_path model_name : string)
  : M World (option string) :=
  model <- load_whisper_model model_name ;;
  match model with
  | None => ret None
  | Some _ =>
      try_except
        (raw <- whisper_transcribe audio_file_path ;;
         let text := strip raw in
         ret (Some text))
        (fun e => if is_FileNotFoundError e then ret None else ret None)
  end.

(** The path of the temporary file a byte entry point writes: the
    directory under the working directory, the prefix, and the first
    eight characters of a random hex string, here the one of the [k]-th
    next call of [uuid4]. *)
Definition temp_path_of (dir prefix : string) (w : World) (k : nat) : string :=
  path_join (path_join (cwd w) dir)
            (prefix +:+ String.substring 0 8 (uuid_hex w (uuid_calls w + k))
                    +:+ ".wav").

(** What [os.path.join] puts in front of a relative path. *)
Definition joined_prefix (a : string) : string :=
  if negb (truthy a) || ends_with_slash a then a else a +:+ "/".

(** The statements of the byte entry point of [stt_service] that come
    before its [try]: the directory of the temporary files. *)
Definition make_temp_dir (dir : string) : M World string :=
  cwd <- getcwd ;;
  let temp_dir := path_join cwd dir in
  makedirs temp_dir ;;;
  ret temp_dir.

(** The operating system refuses nothing. *)
Definition obliging (w : World) : Prop :=
  forall c, os_error w c = None.

(** The same machine: nothing but the files, the count of random names
    and the loaded flag can differ. *)
Definition same_machine (w w' : World) : Prop :=
  OPENAI_API_KEY w' = OPENAI_API_KEY w /\ cwd w' = cwd w
  /\ os_error w' = os_error w /\ uuid_hex w' = uuid_hex w
  /\ local_engine w' = local_engine w /\ remote_engine w' = remote_engine w.

(** The local model is there, or can be loaded. *)
Definition model_available (w : World) : bool :=
  _model_loaded w || whisper_loadable w.

(** What the local engine's outcome becomes on the offline byte path. *)
Definition heard_locally (w : World) (audio : string) : option string :=
  match local_engine w audio with
  | inr raw => if truthy (strip raw) then Some (strip raw) else None
  | inl _ => None
  end.

(** What the remote engine's outcome becomes on the online path. *)
Definition heard_remotely (w : World) (audio : string) : option string :=
  match remote_engine w audio with
  | inr transcription => Some (extract_text transcription)
  | inl _ => None
  end.

End SttMore.

Module StoreInvariants.

(** Ids are handed out from a counter: every stored id is below it. *)
Definition ids_below_next (s : MemStore.t) : Prop :=
  forall r, In r (MemStore.reminders s) -> rid r < MemStore.next_id s.

(** No two stored reminders share an id. *)
Definition unique_ids (s : MemStore.t) : Prop :=
  NoDup (List.map rid (MemStore.reminders s)).

End StoreInvariants.

Module AgentMore.

(** What one entry of the conversation history becomes, if anything. *)
Definition message_of_entry (msg : HistoryEntry) : list Message :=
  if String.eqb (role msg) "user" then [HumanMessage (content msg)]
  else if String.eqb (role msg) "assistant" then [AIMessage (content msg) []]
  else [].

End AgentMore.

(** Unfolding the monad and the file operations. *)
Ltac run_files :=
  cbv beta iota zeta delta
    [bind ret raise gets modify try_except try_except_on try_finally
     Stt.os_call Stt.getcwd Stt.makedirs
     Stt.write_file Stt.path_exists Stt.whisper_transcribe Stt.read_file
     Stt.getsize Stt.cleanup_temp Stt.unlink Stt.uuid4_hex8
     Stt.load_whisper_model];
  repeat first
    [ progress cbn [Stt.fs Stt.local_engine Stt.remote_engine Stt.cwd
                    Stt.uuid_hex Stt.uuid_calls Stt.whisper_loadable
                    Stt._model_loaded Stt.OPENAI_API_KEY Stt.os_error
                    Stt.file_exists_error
                    Stt.set_fs Stt.set_model_loaded
                    negb orb andb fst snd]
    | rewrite lookup_insert_eq
    | rewrite bool_decide_eq_true_2 by eauto ].

(** One step of a run: a case analysis on the next thing the outcome
    depends on. *)
Ltac run_step :=
  match goal with
  | |- context [if Stt._model_loaded ?w then _ else _] =>
      destruct (Stt._model_loaded w) eqn:?
  | |- context [if Stt.whisper_loadable ?w then _ else _] =>
      destruct (Stt.whisper_loadable w) eqn:?
  | |- context [match Stt.os_error ?w ?c with _ => _ end] =>
      destruct (Stt.os_error w c) eqn:?
  | |- context [match ?files !! ?p with _ => _ end] =>
      destruct (files !! p) eqn:?
  | |- context [bool_decide (is_Some (?files !! ?p))] =>
      destruct (files !! p) eqn:?;
      [rewrite bool_decide_eq_true_2 by eauto
      |rewrite bool_decide_eq_false_2 by (now intros [? ?])]
  | |- context [match Stt.local_engine ?w ?a with _ => _ end] =>
      destruct (Stt.local_engine w a) eqn:?
  | |- context [match Stt.remote_engine ?w ?a with _ => _ end] =>
      destruct (Stt.remote_engine w a) eqn:?
  | |- context [truthy (strip ?raw)] => destruct (truthy (strip raw)) eqn:?
  | |- context [Nat.eqb (String.length ?t) 0] =>
      destruct (Nat.eqb (String.length t) 0) eqn:?
  end; run_files.

(** * Properties *)

(** ** Conversation memory *)

Module MemoryFacts.
Import Memory.

Lemma last_n_short {A} (n : nat) (l : list A) :
  length l <= n -> last_n n l = l.
Proof.
  intros Hle. unfold last_n.
  replace (length l - n) with 0 by lia. reflexivity.
Qed.

Lemma last_n_length {A} (n : nat) (l : list A) : length (last_n n l) <= n.
Proof. unfold last_n. rewrite length_drop. lia. Qed.

(** Truncating early does not change what survives later appends. *)
Lemma last_n_app_absorb {A} (n : nat) (l l' : list A) :
  last_n n (last_n n l ++ l') = last_n n (l ++ l').
Proof.
  destruct (decide (length l <= n)) as [Hle|Hgt].
  - now rewrite (last_n_short n l).
  - unfold last_n. rewrite !length_app, length_drop.
    rewrite !drop_app, drop_drop, length_drop.
    f_equal; f_equal; lia.
Qed.

Lemma history_add_same p r c m :
  history p (add_to_agent_history p r c m)
  = last_n 10 (history p m ++ [mkEntry r c]).
Proof.
  unfold add_to_agent_history, history, last_n. cbv zeta.
  destruct (m !! p) as [l|] eqn:Hl.
  - rewrite Hl. change (default [] (Some l)) with l.
    destruct (Nat.ltb_spec 10 (length (l ++ [mkEntry r c]))) as [Hlt|Hge];
      rewrite lookup_insert_eq; [reflexivity|].
    change (l ++ [mkEntry r c] = drop (length (l ++ [mkEntry r c]) - 10) (l ++ [mkEntry r c])).
    replace (length (l ++ [mkEntry r c]) - 10) with 0 by lia. reflexivity.
  - rewrite lookup_insert_eq.
    change (default [] (Some [])) with (@nil HistoryEntry).
    change (default [] None) with (@nil HistoryEntry).
    destruct (Nat.ltb_spec 10 (length ([] ++ [mkEntry r c]))) as [Hlt|Hge];
      rewrite lookup_insert_eq; reflexivity.
Qed.

Lemma history_add_other p q r c m :
  p <> q -> history q (add_to_agent_history p r c m) = history q m.
Proof.
  intros Hne. unfold add_to_agent_history, history. cbv zeta.
  destruct (m !! p) as [l|] eqn:Hl.
  - destruct (Nat.ltb _ _); now rewrite !lookup_insert_ne.
  - destruct (Nat.ltb _ _); now rewrite !lookup_insert_ne.
Qed.

Lemma history_get p q m :
  history q (fst (get_agent_history p m)) = history q m.
Proof.
  unfold get_agent_history, history; cbn.
  destruct (m !! p) as [l|] eqn:Hl; [reflexivity|].
  destruct (decide (p = q)) as [->|Hne].
  - now rewrite lookup_insert_eq, Hl.
  - now rewrite lookup_insert_ne.
Qed.

Lemma appended_to_app p ops ops' :
  appended_to p (ops ++ ops') = appended_to p ops ++ appended_to p ops'.
Proof. apply flat_map_app. Qed.

Lemma history_run_op p op m :
  length (history p m) <= 10 ->
  history p (run_op m op) = last_n 10 (history p m ++ appended_to p [op]).
Proof.
  intros Hm. destruct op as [q r c|q]; unfold run_op, appended_to, flat_map.
  - destruct (decide (q = p)) as [->|Hne].
    + now rewrite history_add_same, app_nil_r.
    + rewrite history_add_other by done. now rewrite !app_nil_r, last_n_short.
  - now rewrite history_get, !app_nil_r, last_n_short.
Qed.

(** The stored history is the last ten entries of everything appended. *)
Lemma history_run_ops p ops : forall m,
  length (history p m) <= 10 ->
  history p (run_ops ops m) = last_n 10 (history p m ++ appended_to p ops).
Proof.
  induction ops as [|op ops IH]; intros m Hm.
  - unfold run_ops, appended_to, flat_map, fold_left.
    now rewrite app_nil_r, last_n_short.
  - change (run_ops (op :: ops) m) with (run_ops ops (run_op m op)).
    change (op :: ops) with ([op] ++ ops).
    rewrite (appended_to_app p [op] ops).
    rewrite IH.
    + rewrite history_run_op by done.
      now rewrite last_n_app_absorb, <- app_assoc.
    + rewrite history_run_op by done. apply last_n_length.
Qed.

Lemma history_init p : history p agent_conversations_init = [].
Proof. reflexivity. Qed.

(** C8.  Starting from the empty module-level dict, whatever the callers
    do (appends and reads, for any patients, in any order), no patient
    ever has more than ten stored entries.  Moreover, after any further
    operations that append eleven entries for one patient (possibly
    interleaved with operations on other patients and with reads), that
    patient's history is exactly the last ten of the eleven, in append
    order: the position of the first-appended entry is gone, and the
    eleventh entry is there (it is the last one). *)
Theorem conversation_memory_bounded_fifo :
  forall (before during : list MemoryOp) (patient_id : string)
         (first : HistoryEntry) (survivors : list HistoryEntry),
    appended_to patient_id during = first :: survivors ->
    length survivors = 10 ->
    (forall ops p, length (history p (run_ops ops agent_conversations_init)) <= 10)
    /\ history patient_id (run_ops (before ++ during) agent_conversations_init)
       = survivors
    /\ last (history patient_id (run_ops (before ++ during) agent_conversations_init))
       = last (first :: survivors)
    /\ (first ∉ survivors ->
        first ∉ history patient_id (run_ops (before ++ during) agent_conversations_init)).
Proof.
  intros before during p first survivors Hduring Hlen.
  assert (Hbound : forall ops q,
             length (history q (run_ops ops agent_conversations_init)) <= 10).
  { intros ops q. rewrite history_run_ops by (rewrite history_init; simpl; lia).
    apply last_n_length. }
  assert (Hhist : history p (run_ops (before ++ during) agent_conversations_init)
                  = survivors).
  { unfold run_ops. rewrite fold_left_app. fold (run_ops before agent_conversations_init).
    fold (run_ops during (run_ops before agent_conversations_init)).
    rewrite history_run_ops by apply Hbound.
    rewrite Hduring.
    set (h := history p (run_ops before agent_conversations_init)).
    unfold last_n. rewrite length_app; cbn [length]. rewrite Hlen.
    replace (length h + 11 - 10) with (length h + 1) by lia.
    rewrite drop_app, drop_ge by lia.
    replace (length h + 1 - length h) with 1 by lia. reflexivity. }
  split; [exact Hbound|]. rewrite Hhist.
  split; [reflexivity|]. split; [|tauto].
  destruct survivors; [discriminate|reflexivity].
Qed.

(** The theorem at work: one earlier entry, then the eleven appends of
    [eleven_appends]. *)
Lemma conversation_memory_bounded_fifo_witness :
  history "p7" (run_ops ([Add "p7" "user" "m0"] ++ eleven_appends)
                        agent_conversations_init)
  = [mkEntry "assistant" "m2"; mkEntry "user" "m3"; mkEntry "assistant" "m4";
     mkEntry "user" "m5"; mkEntry "assistant" "m6"; mkEntry "user" "m7";
     mkEntry "assistant" "m8"; mkEntry "user" "m9"; mkEntry "assistant" "m10";
     mkEntry "user" "m11"].
Proof.
  apply (conversation_memory_bounded_fifo
           [Add "p7" "user" "m0"] eleven_appends "p7" (mkEntry "user" "m1")).
  - reflexivity.
  - reflexivity.
Defined.

End MemoryFacts.

(** ** Speech to text *)

Module SttFacts.
Import Stt SttMore.

Lemma never_ret {St A} (bad a : A) : a <> bad -> never_returns (St:=St) bad (ret a).
Proof. intros Hne s [= Heq]. contradiction. Qed.

Lemma never_bind {St A B} (bad : B) (c : M St A) (k : A -> M St B) :
  (forall a, never_returns bad (k a)) -> never_returns bad (bind c k).
Proof.
  intros Hk s. unfold bind. destruct (c s) as [s' [e|a]]; [discriminate|].
  apply Hk.
Qed.

Lemma never_try_except {St A} (bad : A) (body : M St A) handler :
  never_returns bad body -> (forall e, never_returns bad (handler e)) ->
  never_returns bad (try_except body handler).
Proof.
  intros Hb Hh s. unfold try_except, try_except_on.
  specialize (Hb s). destruct (body s) as [s' [e|a]]; [apply Hh|exact Hb].
Qed.

Lemma never_try_finally {St A} (bad : A) (body : M St A) cleanup :
  never_returns bad body -> never_returns bad (try_finally body cleanup).
Proof.
  intros Hb s. unfold try_finally. specialize (Hb s).
  destruct (body s) as [s' r]. destruct (cleanup s') as [s'' [e|u]];
    [discriminate|exact Hb].
Qed.

Lemma truthy_empty : truthy "" = false.
Proof. reflexivity. Qed.

Lemma same_machine_refl w : same_machine w w.
Proof. now repeat split. Qed.

(** The offline byte path, whatever the engine yields and whatever the
    operating system refuses: it returns; of the files it touches only
    its temporary one, which is gone afterwards when the system lets it
    be deleted; and a text it returns is the stripped text of the
    engine, not empty. *)
Lemma from_bytes_cases audio model_name w :
  let temp_path := temp_path_of "temp_whisper" "whisper_" w 0 in
  exists w' answer,
    transcribe_audio_from_bytes audio model_name w = (w', inr answer)
    /\ same_machine w w'
    /\ (forall p, p <> temp_path -> fs w' !! p = fs w !! p)
    /\ (os_error w (Unlink temp_path) = None -> fs w !! temp_path = None ->
        fs w' !! temp_path = None)
    /\ (forall text, answer = Some text ->
          truthy text = true
          /\ exists raw, local_engine w audio = inr raw /\ text = strip raw).
Proof.
  intros temp_path. unfold transcribe_audio_from_bytes.
  assert (Hpath : path_join (path_join (cwd w) "temp_whisper")
                    ("whisper_" +:+ String.substring 0 8 (uuid_hex w (uuid_calls w))
                     +:+ ".wav") = temp_path).
  { unfold temp_path, temp_path_of. now rewrite Nat.add_0_r. }
  clearbody temp_path.
  run_files. repeat (rewrite ?Hpath; run_step).
  all: rewrite ?Hpath.
  all: eexists _, _; split; [reflexivity|].
  all: split; [now repeat split|].
  all: cbn [fs set_fs set_model_loaded].
  all: split; [intros p Hp; now rewrite ?lookup_delete_ne, ?lookup_insert_ne by auto|].
  all: split; [intros; try discriminate; rewrite ?lookup_delete_eq; auto|].
  all: intros text [= <-]; (split; [assumption|eauto]).
Qed.

(** The offline path never hands an empty string to its caller. *)
Lemma offline_never_empty audio model_name :
  never_returns (Some "") (transcribe_audio_from_bytes audio model_name).
Proof.
  intros w.
  destruct (from_bytes_cases audio model_name w)
    as (w' & answer & -> & _ & _ & _ & Htext).
  cbn [snd]. intros [= ->].
  now destruct (Htext "" eq_refl) as [Hempty _].
Qed.

(** When the local engine hears nothing (its text is empty or all
    whitespace), the offline path signals absence. *)
Lemma offline_absent_on_blank audio model_name w raw :
  local_engine w audio = inr raw -> strip raw = "" ->
  snd (transcribe_audio_from_bytes audio model_name w) = inr None.
Proof.
  intros Hengine Hblank.
  destruct (from_bytes_cases audio model_name w)
    as (w' & answer & -> & _ & _ & _ & Htext).
  cbn [snd]. destruct answer as [text|]; [|reflexivity].
  destruct (Htext text eq_refl) as (Hfull & raw' & Hraw' & ->).
  rewrite Hengine in Hraw'. injection Hraw' as <-.
  now rewrite Hblank in Hfull.
Qed.

(** The online path returns whatever text the remote engine yields,
    unstripped and unchecked. *)
Lemma online_returns_engine_text path audio w t :
  USE_LOCAL_WHISPER w = false ->
  fs w !! path = Some audio ->
  remote_engine w audio = inr t ->
  transcribe_audio path w = (w, inr (Some (extract_text t))).
Proof.
  intros Hlocal Hfile Hengine.
  unfold transcribe_audio, bind, gets. rewrite Hlocal.
  unfold try_except, try_except_on, bind, read_file, ret.
  now rewrite Hfile, Hengine.
Qed.

(** C9 (the divergence).  With an online credential and a remote engine
    that yields the empty text, the online path, entered through
    [transcribe_audio_bytes], returns the empty string itself and not
    the absence signal; the offline path on a blank text returns the
    absence signal. *)
Theorem online_path_returns_empty_string :
  snd (transcribe_audio_bytes "RIFFdata" silent_online_world) = inr (Some "")
  /\ snd (transcribe_audio_bytes "RIFFdata" silent_offline_world) = inr None.
Proof. split; vm_compute; reflexivity. Qed.

End SttFacts.

(** ** The tools *)

Module ToolFacts.
Import Tools.

Lemma strptime_raises_ValueError `{UnicodeData} data format e :
  Datetime.strptime data format = inl e -> is_ValueError e = true.
Proof.
  unfold Datetime.strptime.
  repeat match goal with
         | |- context [match ?x with _ => _ end] => destruct x
         | |- context [if ?b then _ else _] => destruct b
         end; intros [= <-]; reflexivity.
Qed.

Section AnyStore.
Context `{UnicodeData} {W : Type} `{DataStore W} `{Clock W}.

(** A date and time whose joined text does not parse: the tool answers
    with the format error and never reaches the store. *)
Lemma create_reminder_rejects pair_id title date time e (w : W) :
  parse_reminder_datetime date time = inl e ->
  create_reminder pair_id title date time w
  = (w, inr ("Error: Invalid date/time format. Please use 'dd MMM yyyy' for date and 'hh:mm AM/PM' for time. Error: "
             +:+ str_exception e)).
Proof.
  intros Hparse. unfold create_reminder. rewrite Hparse.
  rewrite (strptime_raises_ValueError _ _ _ Hparse). reflexivity.
Qed.

(** C5.  Whatever the data store does (the client cannot be obtained,
    the insert raises, the insert succeeds, the world changes in any
    way), [send_emergency_alert] does not raise: it returns one of its
    two fixed reassuring sentences, and that string is not empty. *)
Theorem send_emergency_alert_always_reassures :
  forall (pair_id reason : string) (w : W),
  exists (w' : W) (answer : string),
    send_emergency_alert pair_id reason w = (w', inr answer)
    /\ truthy answer = true
    /\ (answer = "I've notified your caregiver about this situation. Help is on the way. Please stay calm."
        \/ answer = "I'm here with you. Let me help you feel safe.").
Proof.
  intros pair_id reason w.
  unfold send_emergency_alert.
  cbv beta iota zeta delta [bind ret gets try_except try_except_on].
  destruct (get_supabase_client w) as [w1 [e|[]]].
  - exists w1. eexists. split; [reflexivity|]. split; [reflexivity|now right].
  - destruct (emergency_alerts_insert _ w1) as [w2 [e|[]]];
      exists w2; eexists; (split; [reflexivity|]); (split; [reflexivity|now left]).
Qed.

End AnyStore.

End ToolFacts.

Module StoreFacts.
Import Tools SpecSide.
Import ToolFacts.

(** C3 (the divergence).  The date "25 Dec" does not parse under
    'dd Mon yyyy' and the time "2024 08:00 AM" does not parse under
    'hh:mm AM/PM'; the tool validates their joined text
    "25 Dec 2024 08:00 AM" against the joined format and nothing else,
    so the reminder is inserted, with that date and that time, and
    confirmed. *)
Theorem create_reminder_accepts_shifted_split :
  parses_date "25 Dec" = false
  /\ parses_time "2024 08:00 AM" = false
  /\ create_reminder "pair-1" "Pills" "25 Dec" "2024 08:00 AM" Examples.empty_store
     = (MemStore.mk [mkReminder 1 "pair-1" "Pills" "25 Dec" "2024 08:00 AM"]
                    [] 2 Examples.morning,
        inr "Reminder created successfully! I'll remind you about 'Pills' on 25 Dec at 2024 08:00 AM.").
Proof. repeat split; vm_compute; reflexivity. Qed.

Section AnyTables.
Context `{UnicodeData}.

(** What the tool does validate, on the in-memory store: when the
    joined text [date + " " + time] does not parse under the joined
    format, the tool returns a string that starts with "Error:" and
    the store is exactly what it was; when it parses, one record with
    the given pair, title, date and time is added to the reminders
    and the confirmation echoes title, date and time. *)
Lemma create_reminder_validates_joined_text :
  forall (pair_id title date time : string) (s : MemStore.t),
    (forall e, parse_reminder_datetime date time = inl e ->
       exists answer,
         create_reminder pair_id title date time s = (s, inr answer)
         /\ String.prefix "Error:" answer = true)
    /\ (forall dt, parse_reminder_datetime date time = inr dt ->
          create_reminder pair_id title date time s
          = (MemStore.mk
               (MemStore.reminders s
                  ++ [mkReminder (MemStore.next_id s) pair_id title date time])
               (MemStore.emergency_alerts s)
               (S (MemStore.next_id s)) (MemStore.clock s),
             inr ("Reminder created successfully! I'll remind you about '"
                  +:+ title +:+ "' on " +:+ date +:+ " at " +:+ time +:+ "."))).
Proof.
  intros pair_id title date time s. split.
  - intros e Hparse. eexists. split.
    + apply create_reminder_rejects, Hparse.
    + reflexivity.
  - intros dt Hparse. unfold create_reminder. rewrite Hparse. reflexivity.
Qed.

End AnyTables.

(** The specification's example date and time, on the empty store. *)
Example create_reminder_accepts_example :
  create_reminder "pair-1" "Take medicine" "25 Dec 2024" "08:00 PM"
    Examples.empty_store
  = (MemStore.mk [mkReminder 1 "pair-1" "Take medicine" "25 Dec 2024" "08:00 PM"]
                 [] 2 Examples.morning,
     inr "Reminder created successfully! I'll remind you about 'Take medicine' on 25 Dec 2024 at 08:00 PM.").
Proof. vm_compute. reflexivity. Qed.

End StoreFacts.

Module DeleteFacts.
Import Tools SpecSide ToolFacts.

Lemma append_cons c (s t : string) : String c s +:+ t = String c (s +:+ t).
Proof. reflexivity. Qed.

Lemma prefix_spec (n h : string) :
  String.prefix n h = true <-> exists rest, h = n +:+ rest.
Proof.
  revert h. induction n as [|c n IH]; intros h.
  - split; [intros _; now exists h|intros _; destruct h; reflexivity].
  - destruct h as [|c' h]; cbn [String.prefix].
    + split; [discriminate|intros [rest Hrest]].
      rewrite append_cons in Hrest. discriminate.
    + destruct (ascii_dec c c') as [->|Hne].
      * rewrite IH. split; intros [rest Hrest]; exists rest.
        -- rewrite append_cons. now rewrite Hrest.
        -- rewrite append_cons in Hrest. congruence.
      * split; [discriminate|intros [rest Hrest]].
        rewrite append_cons in Hrest. congruence.
Qed.

Lemma contains_spec (n h : string) :
  contains n h = true <-> exists before after, h = before +:+ n +:+ after.
Proof.
  induction h as [|c h IH].
  - cbn [contains]. rewrite orb_false_r, prefix_spec. split.
    + intros [rest Hrest]. now exists "", rest.
    + intros [[|c b] [a Ha]]; [now exists a|].
      rewrite append_cons in Ha. discriminate.
  - cbn [contains]. rewrite orb_true_iff, prefix_spec, IH. split.
    + intros [[rest Hrest]|[b [a Ha]]].
      * now exists "", rest.
      * exists (String c b), a. rewrite append_cons. now rewrite Ha.
    + intros [[|c' b] [a Ha]].
      * left. now exists a.
      * right. exists b, a. rewrite append_cons in Ha. congruence.
Qed.

Section AnyTables.
Context `{UnicodeData}.

(** The test of the code is the specification's notion of a match. *)
Lemma title_matches_spec fragment r :
title_matches fragment r = true <-> ci_substring fragment (title r).
Proof. apply contains_spec. Qed.

(** Deleting by id removes the rows with that id and no other row. *)
Lemma delete_id_spec i s x :
In x (MemStore.reminders (MemStore.delete_id i s))
<-> In x (MemStore.reminders s) /\ rid x <> i.
Proof.
unfold MemStore.delete_id. cbn [MemStore.reminders].
rewrite filter_In, negb_true_iff, Nat.eqb_neq. reflexivity.
Qed.

(** C4 (amended).  On the in-memory store, with [mine] the reminders of
  the pair and [matching] those whose title contains the fragment,
  ignoring case:
  - no reminder at all for the pair: the store is unchanged and the
    fixed message says there is nothing to delete;
  - reminders but no match: the store is unchanged and the message
    names the fragment;
  - exactly one match: the rows with that reminder's id are deleted
    and the confirmation names its title, date and time;
  - two or more matches: the store is unchanged and the message lists
    the titles of all the matches. *)
Theorem delete_reminder_by_fragment :
forall (pair_id fragment : string) (s : MemStore.t),
  let mine := MemStore.of_pair pair_id (MemStore.reminders s) in
  let matching := List.filter (title_matches fragment) mine in
  (forall r, In r matching <-> In r mine /\ ci_substring fragment (title r))
  /\ delete_reminder pair_id fragment s =
     match mine, matching with
     | [], _ => (s, inr "You don't have any reminders to delete.")
     | _ :: _, [] =>
         (s, inr ("I couldn't find a reminder matching '" +:+ fragment
                  +:+ "'. Please check the reminder title and try again."))
     | _ :: _, [r] =>
         (MemStore.delete_id (rid r) s,
          inr ("I've deleted the reminder '" +:+ title r
               +:+ "' scheduled for " +:+ date r +:+ " at " +:+ time r +:+ "."))
     | _ :: _, _ :: _ :: _ =>
         (s, inr ("Found multiple reminders matching '" +:+ fragment
                  +:+ "': " +:+ join ", " (List.map title matching)
                  +:+ ". Please be more specific."))
     end.
Proof.
intros pair_id fragment s mine matching. split.
- intros r. unfold matching. rewrite filter_In, title_matches_spec. reflexivity.
- unfold delete_reminder. run_store.
  fold mine. destruct mine as [|r0 rest] eqn:Hmine; [reflexivity|].
  fold matching. destruct matching as [|r [|r' more]]; reflexivity.
Qed.

End AnyTables.

(** C4 (as stated, refuted).  A pair without reminders: the fragment
    matches zero reminders, and the message does not name it. *)
Lemma delete_reminder_empty_pair_message :
  delete_reminder "pair-1" "pills" Examples.empty_store
  = (Examples.empty_store, inr "You don't have any reminders to delete.")
  /\ contains "pills" "You don't have any reminders to delete." = false.
Proof. split; vm_compute; reflexivity. Qed.

(** One match among two reminders: the dentist goes, the pills stay. *)
Example delete_reminder_single_match :
  delete_reminder "pair-1" "DENT" Examples.two_reminders
  = (MemStore.mk [Examples.pills] [] 3 Examples.morning,
     inr "I've deleted the reminder 'Dentist' scheduled for 25 Dec 2024 at 08:00 AM.").
Proof. vm_compute. reflexivity. Qed.

(** The empty fragment matches both reminders: nothing is deleted. *)
Example delete_reminder_ambiguous :
  delete_reminder "pair-1" "" Examples.two_reminders
  = (Examples.two_reminders,
     inr "Found multiple reminders matching '': Dentist, Pills. Please be more specific.").
Proof. vm_compute. reflexivity. Qed.

End DeleteFacts.

Module ListFacts.
Import Tools SpecSide ToolFacts.

Lemma geb_negb_ltb a b : Datetime.geb a b = negb (Datetime.ltb a b).
Proof. unfold Datetime.geb, Datetime.ltb. now destruct (Datetime.compare a b). Qed.

Section AnyTables.
Context `{UnicodeData}.

(** The filtering loop keeps exactly the upcoming reminders, in the
  order it met them. *)
Lemma keep_upcoming_filter now data : forall acc,
fold_left (keep_upcoming now) data acc
= acc ++ List.filter (is_upcoming now) data.
Proof.
induction data as [|r data IH]; intros acc; cbn [fold_left List.filter].
- now rewrite app_nil_r.
- rewrite IH. unfold keep_upcoming, is_upcoming.
  destruct (parse_reminder_datetime (date r) (time r)) as [e|dt];
    [reflexivity|].
  rewrite geb_negb_ltb.
  destruct (negb (Datetime.ltb dt now)); [|reflexivity].
  now rewrite <- app_assoc.
Qed.

Lemma insert_sorted_perm r rows :
Permutation (MemStore.insert_sorted r rows) (r :: rows).
Proof.
induction rows as [|x rows IH]; cbn; [reflexivity|].
destruct (MemStore.order_leb r x); [reflexivity|].
rewrite IH. apply perm_swap.
Qed.

(** Ordering the rows neither drops nor repeats any. *)
Lemma order_by_date_time_perm rows :
Permutation (MemStore.order_by_date_time rows) rows.
Proof.
induction rows as [|r rows IH]; cbn; [reflexivity|].
unfold MemStore.order_by_date_time in *. cbn.
rewrite insert_sorted_perm. now rewrite IH.
Qed.

Lemma filter_perm {A} (f : A -> bool) (l l' : list A) :
Permutation l l' -> Permutation (List.filter f l) (List.filter f l').
Proof.
induction 1; cbn; repeat destruct (f _); eauto using Permutation.
Qed.

Lemma imap_lookup_line (rs : list Reminder) i r :
rs !! i = Some r ->
imap (fun i reminder => reminder_line (S i) reminder) rs !! i
= Some (reminder_line (i + 1) r).
Proof.
intros Hr. rewrite list_lookup_imap, Hr. cbn. now rewrite Nat.add_1_r.
Qed.

(** C7.  On the in-memory store, with [stored] the reminders of the
  pair and [now] the clock: there is a list [upcoming] holding exactly
  the stored reminders that parse and are not strictly before [now],
  each once; when the pair has no reminder the answer is the fixed
  "no reminders" sentence, when none is upcoming it is the fixed
  "all passed" sentence, and otherwise the answer is a header followed
  by one line per upcoming reminder, the line at position [i]
  (counting from 0) being "{i+1}. {title} - {date} at {time}".
  The store is unchanged. *)
Theorem list_reminders_upcoming_enumerated :
forall (pair_id : string) (s : MemStore.t),
  let stored := MemStore.of_pair pair_id (MemStore.reminders s) in
  let now := MemStore.clock s in
  exists (upcoming : list Reminder) (answer : string),
    list_reminders pair_id s = (s, inr answer)
    /\ Permutation upcoming (List.filter (is_upcoming now) stored)
    /\ (forall r, In r upcoming ->
          exists dt, parse_reminder_datetime (date r) (time r) = inr dt
                     /\ Datetime.ltb dt now = false)
    /\ match stored, upcoming with
       | [], _ => answer = "You don't have any reminders set right now."
       | _ :: _, [] =>
           answer = "All your reminders have passed. You don't have any upcoming reminders."
       | _ :: _, _ :: _ =>
           exists lines : list string,
             answer = "You have " +:+ str_nat (length upcoming)
                      +:+ " upcoming reminder(s):" +:+ LF +:+ join LF lines
             /\ length lines = length upcoming
             /\ forall i r, upcoming !! i = Some r ->
                  lines !! i
                  = Some (str_nat (i + 1) +:+ ". " +:+ title r +:+ " - "
                          +:+ date r +:+ " at " +:+ time r)
       end.
Proof.
intros pair_id s stored now.
set (fetched := MemStore.order_by_date_time stored).
exists (List.filter (is_upcoming now) fetched).
assert (Hperm : Permutation fetched stored) by apply order_by_date_time_perm.
assert (Hup : forall r, In r (List.filter (is_upcoming now) fetched) ->
          exists dt, parse_reminder_datetime (date r) (time r) = inr dt
                     /\ Datetime.ltb dt now = false).
{ intros r [_ Hr]%filter_In. unfold is_upcoming in Hr.
  destruct (parse_reminder_datetime (date r) (time r)) as [e|dt];
    [discriminate|].
  exists dt. split; [reflexivity|]. now apply negb_true_iff. }
unfold list_reminders. run_store. fold stored. fold fetched.
destruct fetched as [|f fetched'] eqn:Hfetched.
- apply Permutation_nil in Hperm. rewrite Hperm.
  eexists. split; [reflexivity|]. now repeat split.
- destruct stored as [|s0 stored'] eqn:Hstored.
  { symmetry in Hperm. now apply Permutation_nil in Hperm. }
  cbv beta. fold now. rewrite !keep_upcoming_filter. cbn [app].
  destruct (List.filter (is_upcoming now) (f :: fetched')) as [|u upcoming'] eqn:Hfilter.
  + eexists. split; [reflexivity|]. split; [|split; [exact Hup|reflexivity]].
    rewrite <- Hfilter. now apply filter_perm.
  + eexists. split; [reflexivity|]. split; [|split; [exact Hup|]].
    * rewrite <- Hfilter. now apply filter_perm.
    * eexists. split; [reflexivity|]. split; [apply length_imap|].
      intros i r Hr. now apply imap_lookup_line.
Qed.

End AnyTables.

(** C6 (the divergence).  The store holds the dentist (25 Dec 2024)
    and the pills (01 Feb 2025); both are upcoming.  The query orders
    the text of the date column, so the pills of February 2025 are
    enumerated before the dentist of December 2024: the enumeration is
    not chronological. *)
Theorem list_reminders_order_is_textual :
  list_reminders "pair-1" Examples.two_reminders
  = (Examples.two_reminders,
     inr ("You have 2 upcoming reminder(s):" +:+ LF
          +:+ "1. Pills - 01 Feb 2025 at 08:00 AM" +:+ LF
          +:+ "2. Dentist - 25 Dec 2024 at 08:00 AM"))
  /\ chronological [Examples.pills; Examples.dentist] = false
  /\ chronological [Examples.dentist; Examples.pills] = true.
Proof. repeat split; vm_compute; reflexivity. Qed.

End ListFacts.


(** ** The Unicode tables on ASCII text

    Every instance of the tables parses an ASCII text as the ASCII tables
    do: what the examples compute holds for every version of the
    interpreter. *)

Module TablesFacts.
Import Tables Datetime.

Lemma isascii_app (s t : string) :
  isascii (s +:+ t) = isascii s && isascii t.
Proof.
  induction s as [|c s IH]; [reflexivity|].
  change (String c s +:+ t) with (String c (s +:+ t)).
  cbn [isascii]. now rewrite IH, andb_assoc.
Qed.

Lemma chars_isascii (s : string) :
  isascii s = true -> Forall ascii_char (chars s).
Proof.
  induction s as [|c s IH]; [constructor|].
  cbn [isascii]. intros [Hc Hs]%andb_true_iff.
  apply Nat.ltb_lt in Hc.
  assert (Hn : (N_of_ascii c < 128)%N) by (unfold nat_of_ascii in Hc; lia).
  cbn [chars]. cbv zeta. apply N.ltb_lt in Hn as Hn'. rewrite Hn'.
  constructor; [|now apply IH].
  split; [exact Hn|]. cbn [snd isascii].
  apply andb_true_iff. split; [now apply Nat.ltb_lt|reflexivity].
Qed.

Lemma text_of_isascii (cs : list (N * string)) :
  Forall ascii_char cs -> isascii (text_of cs) = true.
Proof.
  unfold text_of. induction 1 as [|c cs [_ Hc] _ IH]; [reflexivity|].
  cbn [List.map String.concat].
  destruct (List.map snd cs) eqn:Hmap.
  - exact Hc.
  - rewrite !isascii_app, Hc. cbn [isascii andb]. exact IH.
Qed.

Lemma Forall_firstn {A} (P : A -> Prop) n (l : list A) :
  Forall P l -> Forall P (firstn n l).
Proof.
  intros Hl. revert n. induction Hl; intros [|n]; cbn; constructor; auto.
Qed.

Lemma plus_rests_agree p p' cs :
  (forall c, (c < 128)%N -> p c = p' c) -> Forall ascii_char cs ->
  plus_rests p cs = plus_rests p' cs
  /\ Forall (Forall ascii_char) (plus_rests p cs).
Proof.
  intros Hp. induction 1 as [|c cs [Hc _] Hcs [IH IH']]; [now split|].
  cbn [plus_rests]. rewrite <- (Hp _ Hc).
  destruct (p (fst c)); [|now split].
  rewrite IH. split; [reflexivity|].
  rewrite <- IH. apply Forall_app. split; [exact IH'|now constructor].
Qed.

Lemma matches_agree r r' :
  agree r r' -> forall cs, Forall ascii_char cs ->
  matches r cs = matches r' cs /\ Forall ascii_match (matches r cs).
Proof.
  induction 1 as [|c|p p' Hp|r1 r1' r2 r2' _ IH1 _ IH2|r1 r1' r2 r2' _ IH1 _ IH2
                 |p p' Hp|name r r' _ IH]; intros cs Hcs; cbn [matches].
  - split; [reflexivity|]. repeat constructor. exact Hcs.
  - split; [reflexivity|].
    destruct Hcs as [|c' cs Hc' Hcs]; [constructor|].
    destruct (lit_matches c (fst c')); repeat constructor. exact Hcs.
  - destruct Hcs as [|c' cs [Hc' Hb] Hcs]; [now split|].
    rewrite <- (Hp _ Hc'). split; [reflexivity|].
    destruct (p (fst c')); repeat constructor. exact Hcs.
  - destruct (IH1 cs Hcs) as [<- Hall1].
    induction Hall1 as [|m1 ms [Hg1 Hrest1] _ [IHeq IHall]]; [now split|].
    cbn [flat_map]. destruct (IH2 (snd m1) Hrest1) as [<- Hall2].
    rewrite <- IHeq. split; [reflexivity|].
    apply Forall_app. split; [|exact IHall].
    apply Forall_map. eapply Forall_impl; [exact Hall2|].
    intros m2 [Hg2 Hrest2]. split; [|exact Hrest2].
    cbn [fst]. apply Forall_app. now split.
  - destruct (IH1 cs Hcs) as [<- Hall1]. destruct (IH2 cs Hcs) as [<- Hall2].
    split; [reflexivity|]. apply Forall_app. now split.
  - destruct (plus_rests_agree p p' cs Hp Hcs) as [<- Hall].
    split; [reflexivity|]. apply Forall_map.
    eapply Forall_impl; [exact Hall|]. intros rest Hrest. split; [constructor|exact Hrest].
  - destruct (IH cs Hcs) as [<- Hall]. split; [reflexivity|].
    apply Forall_map. eapply Forall_impl; [exact Hall|].
    intros m [Hg Hrest]. split; [|exact Hrest].
    cbn [fst]. constructor; [|exact Hg].
    cbn [snd]. apply text_of_isascii, Forall_firstn, Hcs.
Qed.


Lemma agree_refl r : agree r r.
Proof. induction r; constructor; auto. Qed.

Lemma format_regex_cons `{UnicodeData} after c rest :
  format_regex after (String c rest)
  = let plain :=
      if Nat.leb 128 (nat_of_ascii c) then None
      else if is_whitespace (N_of_ascii c) then
        match format_regex true rest with
        | Some r' => Some (if after then r' else Cat (Plus is_whitespace) r')
        | None => None
        end
      else
        match format_regex false rest with
        | Some r' => Some (Cat (Lit c) r')
        | None => None
        end in
    if Ascii.eqb c "%" then
      match rest with
      | String d rest' =>
          match directive_regex d, format_regex false rest' with
          | Some r, Some r' => Some (Cat r r')
          | _, _ => None
          end
      | EmptyString => plain
      end
    else plain.
Proof.
  destruct c as [[] [] [] [] [] [] [] []]; destruct rest; reflexivity.
Qed.


Section AnyTables.
Context `{UnicodeData}.

Lemma digit_agree : agree digit (digit (H := ascii_tables)).
Proof.
  constructor. intros c Hc. cbn [decimal ascii_tables].
  now rewrite (decimal_isascii c Hc).
Qed.

Lemma directive_regex_agree d :
  agree_option (directive_regex d) (directive_regex (H := ascii_tables) d).
Proof.
  unfold directive_regex.
  repeat match goal with
         | |- context [Ascii.eqb d ?x] => destruct (Ascii.eqb d x)
         end; cbn [agree_option]; try exact I;
    repeat first [ exact digit_agree | apply agree_refl | constructor ].
Qed.

Lemma format_regex_agree_bounded n : forall format after,
  String.length format <= n ->
  agree_option (format_regex after format)
               (format_regex (H := ascii_tables) after format).
Proof.
  induction n as [|n IH]; intros [|c rest] after Hlen;
    try (cbn; constructor); try (cbn in Hlen; lia).
  cbn [String.length] in Hlen.
  rewrite (format_regex_cons (H := H)), (format_regex_cons (H := ascii_tables)).
  cbv zeta.
  assert (Hrest : forall b, agree_option (format_regex b rest)
                              (format_regex (H := ascii_tables) b rest)).
  { intros b. apply IH. lia. }
  assert (Hplain :
    agree_option
      (if Nat.leb 128 (nat_of_ascii c) then None
       else if is_whitespace (N_of_ascii c) then
         match format_regex true rest with
         | Some r' => Some (if after then r' else Cat (Plus is_whitespace) r')
         | None => None
         end
       else
         match format_regex false rest with
         | Some r' => Some (Cat (Lit c) r')
         | None => None
         end)
      (if Nat.leb 128 (nat_of_ascii c) then None
       else if is_whitespace (N_of_ascii c) then
         match format_regex (H := ascii_tables) true rest with
         | Some r' => Some (if after then r' else Cat (Plus is_whitespace) r')
         | None => None
         end
       else
         match format_regex (H := ascii_tables) false rest with
         | Some r' => Some (Cat (Lit c) r')
         | None => None
         end)).
  { destruct (Nat.leb 128 (nat_of_ascii c)); [exact I|].
    destruct (is_whitespace (N_of_ascii c)).
    - pose proof (Hrest true) as Hr.
      destruct (format_regex true rest), (format_regex (H := ascii_tables) true rest);
        cbn [agree_option] in Hr |- *; try contradiction; try exact I.
      destruct after; [exact Hr|]. constructor; [apply agree_refl|exact Hr].
    - pose proof (Hrest false) as Hr.
      destruct (format_regex false rest), (format_regex (H := ascii_tables) false rest);
        cbn [agree_option] in Hr |- *; try contradiction; try exact I.
      constructor; [apply agree_refl|exact Hr]. }
  destruct (Ascii.eqb c "%"); [|exact Hplain].
  destruct rest as [|d rest']; [exact Hplain|].
  pose proof (directive_regex_agree d) as Hd.
  assert (Hr : agree_option (format_regex false rest')
                 (format_regex (H := ascii_tables) false rest')).
  { apply IH. cbn [String.length] in Hlen. lia. }
  destruct (directive_regex d), (directive_regex (H := ascii_tables) d);
    cbn [agree_option] in Hd; try contradiction; try exact I.
  destruct (format_regex false rest'), (format_regex (H := ascii_tables) false rest');
    cbn [agree_option] in Hr |- *; try contradiction; try exact I.
  now constructor.
Qed.

Lemma int_of_isascii s :
  isascii s = true -> int_of s = int_of (H := ascii_tables) s.
Proof.
  intros Hs%chars_isascii. unfold int_of.
  cut (forall acc,
         fold_left (fun acc c => match decimal (fst c) with
                                 | Some d => 10 * acc + d
                                 | None => acc
                                 end) (chars s) acc
         = fold_left (fun acc c => match @decimal ascii_tables (fst c) with
                                   | Some d => 10 * acc + d
                                   | None => acc
                                   end) (chars s) acc); [intros Hcut; apply Hcut|].
  induction Hs as [|c cs [Hc _] _ IH]; intros acc; [reflexivity|].
  cbn [fold_left]. rewrite IH. f_equal.
  cbn [decimal ascii_tables]. now rewrite (decimal_isascii _ Hc).
Qed.

Lemma repr_isascii s :
  isascii s = true -> repr s = repr (H := ascii_tables) s.
Proof.
  intros Hs%chars_isascii. unfold repr. cbv zeta.
  do 3 f_equal. induction Hs as [|c cs [Hc _] _ IH]; [reflexivity|].
  cbn [List.map]. rewrite IH. f_equal.
  unfold repr_char. cbn [isprintable ascii_tables].
  now rewrite (isprintable_isascii _ Hc).
Qed.

Lemma ascii_lower_isascii s : isascii s = true -> isascii (ascii_lower s) = true.
Proof.
  induction s as [|c s IH]; [reflexivity|].
  cbn [isascii ascii_lower]. intros [Hc Hs]%andb_true_iff.
  rewrite (IH Hs), andb_true_r. apply Nat.ltb_lt in Hc. apply Nat.ltb_lt.
  unfold ascii_lower_char.
  destruct (Nat.leb 65 (nat_of_ascii c) && Nat.leb (nat_of_ascii c) 90) eqn:Hup;
    [|exact Hc].
  apply andb_true_iff in Hup as [_ Hle%Nat.leb_le].
  rewrite nat_ascii_embedding; lia.
Qed.

Lemma lookup_group_isascii name groups v :
  Forall (fun g => isascii (snd g) = true) groups ->
  lookup_group name groups = Some v -> isascii v = true.
Proof.
  induction 1 as [|[k x] groups Hx _ IH]; [discriminate|].
  cbn [lookup_group]. destruct (String.eqb k name); [|exact IH].
  now intros [= <-].
Qed.

(** Every instance of the tables parses an ASCII text as the ASCII tables
    do. *)
Lemma strptime_isascii data_string format :
  isascii data_string = true -> isascii format = true ->
  strptime data_string format = strptime (H := ascii_tables) data_string format.
Proof.
  intros Hdata Hformat. unfold strptime.
  pose proof (format_regex_agree_bounded _ format false (le_n _)) as Hre.
  destruct (format_regex false format) as [re|],
           (format_regex (H := ascii_tables) false format) as [re'|];
    cbn [agree_option] in Hre; try contradiction.
  2: { now rewrite (repr_isascii format Hformat). }
  destruct (matches_agree re re' Hre (chars data_string) (chars_isascii _ Hdata))
    as [<- Hall].
  destruct (matches re (chars data_string)) as [|[groups rest] ms].
  { now rewrite (repr_isascii _ Hdata), (repr_isascii _ Hformat). }
  apply Forall_cons in Hall as [[Hgroups _] _]. cbn [fst] in Hgroups.
  destruct (truthy (text_of rest)); [reflexivity|].
  cbv zeta.
  assert (Hint : forall name dflt,
            from_option int_of dflt (lookup_group name groups)
            = from_option (int_of (H := ascii_tables)) dflt (lookup_group name groups)).
  { intros name dflt. destruct (lookup_group name groups) as [v|] eqn:Hv;
      [|reflexivity].
    cbn [from_option]. apply int_of_isascii. eapply lookup_group_isascii; eauto. }
  assert (Hlow : forall name v, lookup_group name groups = Some v ->
                   lower v = ascii_lower v /\ isascii (ascii_lower v) = true).
  { intros name v Hv.
    assert (Hascii : isascii v = true) by (eapply lookup_group_isascii; eauto).
    split; [now apply lower_isascii|now apply ascii_lower_isascii]. }
  rewrite !Hint.
  destruct (lookup_group "b" groups) as [b|] eqn:Hb;
    [destruct (Hlow _ _ Hb) as [Hlb Hab]|];
    (destruct (lookup_group "p" groups) as [p|] eqn:Hp;
     [destruct (Hlow _ _ Hp) as [Hlp _]|]);
    cbn [default from_option option_map lower ascii_tables];
    rewrite ?Hlb, ?Hlp; try reflexivity.
  all: destruct (index_of (ascii_lower b) month_abbr); cbn [option_map];
    try reflexivity.
  all: unfold id; rewrite Hlb; now rewrite (repr_isascii _ Hab).
Qed.


Lemma parse_reminder_datetime_isascii the_date the_time :
  isascii the_date = true -> isascii the_time = true ->
  Tools.parse_reminder_datetime the_date the_time
  = Tools.parse_reminder_datetime (H := ascii_tables) the_date the_time.
Proof.
  intros Hdate Htime. unfold Tools.parse_reminder_datetime.
  apply strptime_isascii; [|reflexivity].
  now rewrite !isascii_app, Hdate, Htime.
Qed.

(** With an ASCII date and time, what [create_reminder] does is the same
    under every instance of the tables. *)
Lemma create_reminder_isascii {W : Type} `{DataStore W}
    (pair_id title the_date the_time : string) (w : W) :
  isascii the_date = true -> isascii the_time = true ->
  Tools.create_reminder pair_id title the_date the_time w
  = Tools.create_reminder (H := ascii_tables) pair_id title the_date the_time w.
Proof.
  intros Hdate Htime. unfold Tools.create_reminder.
  now rewrite (parse_reminder_datetime_isascii _ _ Hdate Htime).
Qed.

Lemma keep_upcoming_isascii now rows : forall acc,
  Forall (fun r => isascii (date r) = true /\ isascii (time r) = true) rows ->
  fold_left (Tools.keep_upcoming now) rows acc
  = fold_left (Tools.keep_upcoming (H := ascii_tables) now) rows acc.
Proof.
  induction rows as [|r rows IH]; intros acc Hrows; [reflexivity|].
  apply Forall_cons in Hrows as [[Hdate Htime] Hrows].
  cbn [fold_left]. rewrite IH by exact Hrows. f_equal.
  unfold Tools.keep_upcoming.
  now rewrite (parse_reminder_datetime_isascii _ _ Hdate Htime).
Qed.

(** With ASCII dates and times in the store, what [list_reminders]
    answers is the same under every instance of the tables. *)
Lemma list_reminders_isascii (pair_id : string) (s : MemStore.t) :
  Forall (fun r => isascii (date r) = true /\ isascii (time r) = true)
         (MemStore.reminders s) ->
  Tools.list_reminders pair_id s
  = Tools.list_reminders (H := ascii_tables) pair_id s.
Proof.
  intros Hrows. unfold Tools.list_reminders. run_store.
  assert (Hfetched :
    Forall (fun r => isascii (date r) = true /\ isascii (time r) = true)
           (MemStore.order_by_date_time
              (MemStore.of_pair pair_id (MemStore.reminders s)))).
  { apply List.Forall_forall. intros r Hr.
    eapply Permutation_in in Hr; [|apply ListFacts.order_by_date_time_perm].
    apply filter_In in Hr as [Hr _].
    now apply (proj1 (List.Forall_forall _ _) Hrows). }
  destruct (MemStore.order_by_date_time _) as [|r rows]; [reflexivity|].
  cbv beta. now rewrite (keep_upcoming_isascii _ _ _ Hfetched).
Qed.


(** The examples of the two divergences of the tools, under every
    instance of the tables. *)
Lemma shifted_split_under_any_tables :
  SpecSide.parses_date "25 Dec" = false
  /\ SpecSide.parses_time "2024 08:00 AM" = false
  /\ Tools.create_reminder "pair-1" "Pills" "25 Dec" "2024 08:00 AM"
       Examples.empty_store
     = (MemStore.mk [mkReminder 1 "pair-1" "Pills" "25 Dec" "2024 08:00 AM"]
                    [] 2 Examples.morning,
        inr "Reminder created successfully! I'll remind you about 'Pills' on 25 Dec at 2024 08:00 AM.").
Proof.
  unfold SpecSide.parses_date, SpecSide.parses_time.
  rewrite !strptime_isascii, create_reminder_isascii by reflexivity.
  repeat split; vm_compute; reflexivity.
Qed.

Lemma textual_order_under_any_tables :
  Tools.list_reminders "pair-1" Examples.two_reminders
  = (Examples.two_reminders,
     inr ("You have 2 upcoming reminder(s):" +:+ LF
          +:+ "1. Pills - 01 Feb 2025 at 08:00 AM" +:+ LF
          +:+ "2. Dentist - 25 Dec 2024 at 08:00 AM")).
Proof.
  rewrite list_reminders_isascii by (repeat constructor).
  vm_compute. reflexivity.
Qed.

End AnyTables.
End TablesFacts.

(** ** The agent *)

Module AgentFacts.
Import Agent.

Lemma first_ai_content_truthy msgs text :
  first_ai_content msgs = Some text -> truthy text = true.
Proof.
  induction msgs as [|m msgs IH]; [discriminate|].
  destruct m as [c|c|c calls|c n i]; cbn; try exact IH.
  destruct (truthy c) eqn:Hc; [|exact IH]. now intros [= <-].
Qed.

Lemma first_ai_content_none msgs :
  (forall text calls, In (AIMessage text calls) msgs -> text = "") ->
  first_ai_content msgs = None.
Proof.
  induction msgs as [|m msgs IH]; intros Hall; [reflexivity|].
  destruct m as [c|c|c calls|c n i]; cbn;
    try (apply IH; intros ? ? ?; eapply Hall; right; eassumption).
  rewrite (Hall c calls) by now left. cbn.
  apply IH; intros ? ? ?; eapply Hall; right; eassumption.
Qed.

Lemma first_ai_content_last msgs text calls :
  last msgs = Some (AIMessage text calls) -> truthy text = true ->
  first_ai_content (rev msgs) = Some text.
Proof.
  intros [prefix ->]%last_Some Htext.
  rewrite rev_app_distr. cbn. now rewrite Htext.
Qed.

Section AnyWorld.
Context `{UnicodeData} {W : Type} `{DataStore W} `{Clock W} `{ModelProvider W}.
Variable lib : LangGraph.

(** One step of the graph at the [agent] node. *)
Lemma run_graph_agent_step steps state (r : Run W) :
  run_graph lib (S steps) agent_node state r
  = match call_agent state r with
    | (r1, inl e) => (r1, inl e)
    | (r1, inr update) =>
        match should_continue (apply_update lib state update) with
        | inl e => (r1, inl e)
        | inr tools => run_graph lib steps tools_node (apply_update lib state update) r1
        | inr END => (r1, inr (apply_update lib state update))
        end
    end.
Proof.
  cbn [run_graph]. unfold bind.
  destruct (call_agent state r) as [r1 [e|update]]; [reflexivity|].
  destruct (should_continue (apply_update lib state update)) as [e|[|]];
    reflexivity.
Qed.

(** One step of the graph at the [tools] node. *)
Lemma run_graph_tools_step steps state (r : Run W) :
  run_graph lib (S steps) tools_node state r
  = match tool_node lib state r with
    | (r1, inl e) => (r1, inl e)
    | (r1, inr update) =>
        run_graph lib steps agent_node (apply_update lib state update) r1
    end.
Proof. reflexivity. Qed.

(** C10.  For every patient, pair, message and history, every state of
    the world and every behaviour of the model provider, the tools and
    the data store, [run_agent] does not raise: it returns a string,
    and the string is not empty.  When anything raised out of the
    graph (or the graph could not be built) the answer is the fixed
    reassuring sentence; when the final state holds no assistant
    message with non-empty content it is the fixed fallback sentence;
    otherwise it is the content of the last such message. *)
Theorem run_agent_always_answers :
  forall (patient_id pair_id message : string)
         (conversation_history : list HistoryEntry) (r : Run W),
  exists (r' : Run W) (answer : string),
    run_agent lib patient_id pair_id message conversation_history r
    = (r', inr answer)
    /\ truthy answer = true
    /\ match
         (lift create_agent_graph ;;;
          agent_invoke lib
            (build_initial_state patient_id pair_id message conversation_history)) r
       with
       | (_, inl _) => answer = RUN_ERROR_REPLY
       | (_, inr final_state) =>
           ((forall text calls,
                In (AIMessage text calls) (messages final_state) -> text = "")
            -> answer = FALLBACK_REPLY)
           /\ match first_ai_content (rev (messages final_state)) with
              | Some text => answer = text
              | None => answer = FALLBACK_REPLY
              end
       end.
Proof.
  intros patient_id pair_id message conversation_history r.
  unfold run_agent, try_except, try_except_on, bind.
  destruct (lift create_agent_graph r) as [r1 [e|[]]].
  - exists r1, RUN_ERROR_REPLY. now repeat split.
  - destruct (agent_invoke lib _ r1) as [r2 [e|final_state]].
    + exists r2, RUN_ERROR_REPLY. now repeat split.
    + destruct (first_ai_content (rev (messages final_state))) as [text|] eqn:Hfirst.
      * exists r2, text. split; [reflexivity|].
        split; [eapply first_ai_content_truthy, Hfirst|].
        split; [|reflexivity].
        intros Hnone. rewrite first_ai_content_none in Hfirst; [discriminate|].
        intros t c Hin. apply (Hnone t c). now apply in_rev.
      * exists r2, FALLBACK_REPLY. now repeat split.
Qed.


(** *** The trace of a run *)

Lemma lift_trace {A} (c : M W A) (r r' : Run W) out :
  lift c r = (r', out) -> trace r' = trace r.
Proof.
  unfold lift. destruct (c (world r)) as [w' o]. now intros [= <- _].
Qed.

(** What the [agent] node can do: fail before the model is called,
    have the model call raise, or obtain a response. *)
Lemma call_agent_cases state (r : Run W) :
  let input := [SystemMessage AGENT_SYSTEM_PROMPT] ++ messages state in
  exists r',
    (call_agent state r = (r', inr [AIMessage MODEL_ERROR_REPLY []])
     /\ (trace r' = trace r
         \/ exists e, trace r' = trace r ++ [ModelTurn input (inl e)]))
    \/ (exists text calls,
          call_agent state r = (r', inr [AIMessage text calls])
          /\ trace r' = trace r ++ [ModelTurn input (inr (AIMessage text calls))]).
Proof.
  intros input. unfold call_agent, try_except, try_except_on, bind.
  destruct (lift create_agent_llm r) as [r1 [e|[]]] eqn:Hcreate.
  - exists r1. left. split; [reflexivity|]. left.
    eapply lift_trace, Hcreate.
  - apply lift_trace in Hcreate. fold input.
    unfold invoke_llm.
    destruct (llm_invoke input (world r1)) as [w' [e|[text calls]]].
    + eexists. left. split; [reflexivity|]. right. exists e.
      cbn. now rewrite Hcreate.
    + eexists. right. exists text, calls. split; [reflexivity|].
      cbn. now rewrite Hcreate.
Qed.

Lemma run_tool_call_trace call (r r' : Run W) out :
  run_tool_call lib call r = (r', out) ->
  exists evs, trace r' = trace r ++ evs /\ Forall is_tool_run evs.
Proof.
  unfold run_tool_call.
  destruct (negb _).
  - intros [= <- _]. exists []. now rewrite app_nil_r.
  - destruct (invoke_tool call (world r)) as [w' [e|text]].
    + destruct (handle_tool_errors lib); intros [= <- _];
        eexists; (split; [reflexivity|]); now repeat constructor.
    + intros [= <- _]. eexists. split; [reflexivity|]. now repeat constructor.
Qed.

Lemma run_tool_calls_trace calls : forall (r r' : Run W) out,
  run_tool_calls lib calls r = (r', out) ->
  exists evs, trace r' = trace r ++ evs /\ Forall is_tool_run evs.
Proof.
  induction calls as [|call calls IH]; intros r r' out; cbn [run_tool_calls].
  - intros [= <- _]. exists []. now rewrite app_nil_r.
  - unfold bind.
    destruct (run_tool_call lib call r) as [r1 [e|m]] eqn:Hcall;
      apply run_tool_call_trace in Hcall as (evs1 & Htr1 & Hall1).
    + intros [= <- _]. eauto.
    + destruct (run_tool_calls lib calls r1) as [r2 [e|ms]] eqn:Hrest;
        apply IH in Hrest as (evs2 & Htr2 & Hall2);
        intros [= <- _]; exists (evs1 ++ evs2);
        (split; [rewrite Htr2, Htr1; now rewrite app_assoc
                |now apply Forall_app]).
Qed.

Lemma tool_node_trace state (r r' : Run W) out :
  tool_node lib state r = (r', out) ->
  exists evs, trace r' = trace r ++ evs /\ Forall is_tool_run evs.
Proof.
  unfold tool_node.
  destruct (last (messages state)) as [[c|c|c calls|c n i]|];
    try (intros [= <- _]; exists []; now rewrite app_nil_r).
  apply run_tool_calls_trace.
Qed.

Lemma last_apply_update state (m : Message) :
  last (messages (apply_update lib state [m])) = Some m.
Proof.
  unfold apply_update. cbn. destruct (messages_channel lib).
  - reflexivity.
  - apply last_snoc.
Qed.

(** If some model call of a graph run raised, the run ended right
    there: the failed call is the last event, the graph returned, and
    the last message of the final state is the fixed reply. *)
Lemma run_graph_model_error steps :
  forall node state (r r' : Run W) out,
    run_graph lib steps node state r = (r', out) ->
    exists evs,
      trace r' = trace r ++ evs
      /\ forall input e, In (ModelTurn input (inl e)) evs ->
           last evs = Some (ModelTurn input (inl e))
           /\ exists final_state,
                out = inr final_state
                /\ last (messages final_state)
                   = Some (AIMessage MODEL_ERROR_REPLY []).
Proof.
  induction steps as [|steps IH]; intros node state r r' out Hrun.
  - cbn in Hrun. injection Hrun as <- _.
    exists []. rewrite app_nil_r. split; [reflexivity|]. intros ? ? [].
  - destruct node.
    + rewrite run_graph_agent_step in Hrun.
      destruct (call_agent_cases state r)
        as (r1 & [[Hcall Htrace]|(text & calls & Hcall & Htrace)]);
        rewrite Hcall in Hrun.
      * (* the fixed reply was substituted *)
        unfold should_continue in Hrun.
        rewrite last_apply_update in Hrun. injection Hrun as <- <-.
        destruct Htrace as [Htrace|[e Htrace]].
        -- exists []. rewrite app_nil_r. split; [exact Htrace|]. intros ? ? [].
        -- eexists. split; [exact Htrace|].
           intros input e' [Hin|[]]. rewrite Hin. split; [reflexivity|].
           eexists. split; [reflexivity|]. apply last_apply_update.
      * (* the model answered *)
        unfold should_continue in Hrun.
        rewrite last_apply_update in Hrun.
        destruct calls as [|call calls].
        -- injection Hrun as <- <-. eexists. split; [exact Htrace|].
           intros input e [Hin|[]]. discriminate.
        -- apply IH in Hrun as (evs & Htrace' & Hevs).
           eexists. split.
           { rewrite Htrace', Htrace, <- app_assoc. reflexivity. }
           intros input e [Hin|Hin]; [discriminate|].
           destruct (Hevs input e Hin) as [Hlast Hfinal].
           split; [|exact Hfinal].
           cbn [app]. destruct evs; [destruct Hin|exact Hlast].
    + rewrite run_graph_tools_step in Hrun.
      destruct (tool_node lib state r) as [r1 [e|update]] eqn:Htools;
        apply tool_node_trace in Htools as (evs1 & Htrace1 & Hall1).
      * injection Hrun as <- <-. exists evs1. split; [exact Htrace1|].
        intros input e' Hin. rewrite List.Forall_forall in Hall1.
        destruct (Hall1 _ Hin).
      * apply IH in Hrun as (evs2 & Htrace2 & Hevs).
        exists (evs1 ++ evs2). split.
        { rewrite Htrace2, Htrace1, <- app_assoc. reflexivity. }
        intros input e Hin. apply in_app_or in Hin as [Hin|Hin].
        { rewrite List.Forall_forall in Hall1. destruct (Hall1 _ Hin). }
        destruct (Hevs input e Hin) as [Hlast Hfinal].
        split; [|exact Hfinal].
        rewrite last_app, Hlast. reflexivity.
Qed.

(** C2.  Take any run of [run_agent], and let [events] be what the run
    added to the trace.  If a model call of the run raised (an event
    [ModelTurn input (inl e)]), then nothing happened after it (it is
    the last event), the graph did not raise: it ended in a final
    state whose last message is the fixed assistant message without
    tool-invocation requests, and [run_agent] returned that message's
    text. *)
Theorem provider_error_gives_fixed_reply :
  forall (patient_id pair_id message : string)
         (conversation_history : list HistoryEntry)
         (r r' : Run W) (out : exception + string)
         (events : list Event) (input : list Message) (e : exception),
    run_agent lib patient_id pair_id message conversation_history r = (r', out) ->
    trace r' = trace r ++ events ->
    In (ModelTurn input (inl e)) events ->
    out = inr MODEL_ERROR_REPLY
    /\ last events = Some (ModelTurn input (inl e))
    /\ exists (r1 : Run W) (final_state : AgentState),
         agent_invoke lib
           (build_initial_state patient_id pair_id message conversation_history) r1
         = (r', inr final_state)
         /\ last (messages final_state) = Some (AIMessage MODEL_ERROR_REPLY []).
Proof.
  intros patient_id pair_id message conversation_history r r' out events
    input e Hrun Htrace Hin.
  unfold run_agent, try_except, try_except_on, bind in Hrun.
  destruct (lift create_agent_graph r) as [r1 [e1|[]]] eqn:Hcreate;
    apply lift_trace in Hcreate.
  - (* the graph could not be built: no model call at all *)
    injection Hrun as <- <-. rewrite Hcreate in Htrace.
    rewrite <- (app_nil_r (trace r)) in Htrace at 1.
    apply app_inv_head in Htrace. subst events. destruct Hin.
  - destruct (agent_invoke lib _ r1) as [r2 [e2|final_state]] eqn:Hinvoke;
      pose proof Hinvoke as Hinvoke';
      unfold agent_invoke in Hinvoke;
      apply run_graph_model_error in Hinvoke as (evs & Htrace2 & Hevs).
    + injection Hrun as <- <-. rewrite Htrace2, Hcreate in Htrace.
      apply app_inv_head in Htrace. subst evs.
      destruct (Hevs input e Hin) as [_ (final_state & Hfinal & _)].
      discriminate.
    + assert (r' = r2 /\ evs = events) as [-> ->].
      { destruct (first_ai_content _); injection Hrun as <- _;
          rewrite Htrace2, Hcreate in Htrace;
          apply app_inv_head in Htrace; now subst. }
      destruct (Hevs input e Hin) as [Hlast (final' & [= <-] & Hmsg)].
      rewrite (first_ai_content_last _ _ _ Hmsg eq_refl) in Hrun.
      injection Hrun as <-.
      split; [reflexivity|]. split; [exact Hlast|].
      exists r1, final_state. now split.
Qed.


(** The round trip in general.  A provider that answers the first model turn with
    one request for one of the four tools, and the second model turn
    with non-empty plain text and no request; the client can be
    built, and the requested tool returns its text.  Then the run is
    exactly: first model turn, one execution of the requested tool,
    second model turn; the message sequence given to the second model
    turn ends with the tool's text as a tool message; and [run_agent]
    returns the text of the second answer. *)
Theorem tool_round_trip :
  forall (patient_id pair_id message : string)
         (conversation_history : list HistoryEntry)
         (w0 w1 w2 w3 : W) (before : list Event)
         (text1 : string) (call : ToolCall) (result text2 : string),
    let initial :=
      messages (build_initial_state patient_id pair_id message conversation_history) in
    let request := AIMessage text1 [call] in
    let tool_result := ToolMessage result (tc_name call) (tc_id call) in
    let first_input := [SystemMessage AGENT_SYSTEM_PROMPT] ++ initial in
    let second_input :=
      [SystemMessage AGENT_SYSTEM_PROMPT] ++
      match messages_channel lib with
      | LastValue => [tool_result]
      | OperatorAdd => initial ++ [request] ++ [tool_result]
      end in
    create_agent_llm w0 = (w0, inr tt) ->
    llm_invoke first_input w0 = (w1, inr (text1, [call])) ->
    In (tc_name call) tool_names ->
    invoke_tool call w1 = (w2, inr result) ->
    create_agent_llm w2 = (w2, inr tt) ->
    llm_invoke second_input w2 = (w3, inr (text2, [])) ->
    truthy text2 = true ->
    run_agent lib patient_id pair_id message conversation_history (mkRun w0 before)
    = (mkRun w3 (before ++ [ModelTurn first_input (inr request);
                            ToolRun call (inr result);
                            ModelTurn second_input (inr (AIMessage text2 []))]),
       inr text2)
    /\ last second_input = Some tool_result.
Proof.
  intros patient_id pair_id message conversation_history w0 w1 w2 w3 before
    text1 call result text2 initial request tool_result first_input
    second_input Hllm0 Hfirst Hname Htool Hllm2 Hsecond Htext.
  assert (Hknown : negb (existsb (String.eqb (tc_name call)) tool_names) = false).
  { apply negb_false_iff, existsb_exists. exists (tc_name call).
    split; [exact Hname|apply String.eqb_refl]. }
  split.
  - unfold run_agent, try_except, try_except_on, bind, lift, create_agent_graph.
    cbn [world trace]. unfold try_except, try_except_on. rewrite Hllm0.
    unfold agent_invoke, recursion_limit.
    (* first model turn *)
    rewrite run_graph_agent_step.
    unfold call_agent, try_except, try_except_on, bind, lift, invoke_llm, ret.
    cbn [world trace]. rewrite Hllm0. fold initial. fold first_input.
    cbn [world trace]. rewrite Hfirst.
    unfold should_continue. rewrite last_apply_update.
    (* the tool *)
    rewrite run_graph_tools_step.
    unfold tool_node. rewrite last_apply_update.
    cbn [run_tool_calls]. unfold bind, run_tool_call, ret.
    rewrite Hknown. cbn [world trace]. rewrite Htool.
    (* second model turn *)
    rewrite run_graph_agent_step.
    unfold call_agent, try_except, try_except_on, bind, lift, invoke_llm, ret.
    cbn [world trace]. rewrite Hllm2.
    assert (Hseq : [SystemMessage AGENT_SYSTEM_PROMPT] ++
              messages (apply_update lib
                (apply_update lib
                   (build_initial_state patient_id pair_id message conversation_history)
                   [AIMessage text1 [call]])
                [ToolMessage result (tc_name call) (tc_id call)])
            = second_input).
    { unfold second_input, apply_update. cbn [messages].
      destruct (messages_channel lib); [reflexivity|].
      fold initial. now rewrite <- app_assoc. }
    rewrite Hseq. cbn [world trace]. rewrite Hsecond.
    unfold should_continue. rewrite last_apply_update.
    rewrite (first_ai_content_last _ text2 []); [|apply last_apply_update|exact Htext].
    rewrite <- !app_assoc. reflexivity.
  - unfold second_input. destruct (messages_channel lib).
    + reflexivity.
    + rewrite !app_assoc. apply last_snoc.
Qed.

End AnyWorld.

(** *** Runs in the simulated world *)

(** C1 (the divergence).  The stub answers the first model turn with
    one request for [create_reminder] and the second with plain text.
    The tool runs once and the text of the second answer is returned,
    but the tool's result is not appended to the message sequence:
    [AgentState.messages] carries no reducer, so the update of a node
    replaces the sequence, and the second model turn is given the
    system prompt and the tool message only; the patient's message and
    the request are gone. *)
Theorem second_turn_sees_only_the_tool_result :
  run_agent langgraph_defaults "patient-1" "pair-1"
    "remind me to take pills at 8pm tomorrow" []
    (mkRun Scripts.round_trip_world [])
  = (mkRun
       (Sim.mk (MemStore.mk
                  [mkReminder 1 "pair-1" "Take medicine" "25 Dec 2024" "08:00 PM"]
                  [] 2 (Datetime.mkDatetime 2024 12 24 9 30 0 0))
               (Some "test-key") [])
       [ModelTurn
          [SystemMessage AGENT_SYSTEM_PROMPT;
           HumanMessage "remind me to take pills at 8pm tomorrow"]
          (inr (AIMessage "" [Sim.pills_call]));
        ToolRun Sim.pills_call
          (inr "Reminder created successfully! I'll remind you about 'Take medicine' on 25 Dec 2024 at 08:00 PM.");
        ModelTurn
          [SystemMessage AGENT_SYSTEM_PROMPT;
           ToolMessage
             "Reminder created successfully! I'll remind you about 'Take medicine' on 25 Dec 2024 at 08:00 PM."
             "create_reminder" "call-1"]
          (inr (AIMessage "Your reminder is set for 8 PM tomorrow." []))],
     inr "Your reminder is set for 8 PM tomorrow.").
Proof. vm_compute. reflexivity. Qed.

(** A second answer whose text is empty is not returned either: the
    answer is the fallback sentence, under either treatment of the
    [messages] key. *)
Example empty_second_answer_gives_fallback :
  snd (run_agent langgraph_defaults "patient-1" "pair-1" "remind me" []
         (mkRun Scripts.empty_answer_world []))
  = inr "I'm here to help. What would you like to know?"
  /\ snd (run_agent (mkLangGraph OperatorAdd true) "patient-1" "pair-1" "remind me" []
            (mkRun Scripts.empty_answer_world []))
     = inr "I'm here to help. What would you like to know?".
Proof. split; vm_compute; reflexivity. Qed.

(** The round trip of the specification's example, from the general
    statement. *)
Lemma tool_round_trip_example :
  snd (run_agent langgraph_defaults "patient-1" "pair-1"
         "remind me to take pills at 8pm tomorrow" []
         (mkRun Scripts.round_trip_world []))
  = inr "Your reminder is set for 8 PM tomorrow.".
Proof.
  pose proof (tool_round_trip langgraph_defaults "patient-1" "pair-1"
           "remind me to take pills at 8pm tomorrow" []
           Scripts.round_trip_world
           (Sim.mk Sim.fresh_store (Some "test-key")
              [inr ("Your reminder is set for 8 PM tomorrow.", [])])
           (Sim.mk (MemStore.mk
                      [mkReminder 1 "pair-1" "Take medicine" "25 Dec 2024" "08:00 PM"]
                      [] 2 (Datetime.mkDatetime 2024 12 24 9 30 0 0))
              (Some "test-key")
              [inr ("Your reminder is set for 8 PM tomorrow.", [])])
           (Sim.mk (MemStore.mk
                      [mkReminder 1 "pair-1" "Take medicine" "25 Dec 2024" "08:00 PM"]
                      [] 2 (Datetime.mkDatetime 2024 12 24 9 30 0 0))
              (Some "test-key") [])
           [] "" Sim.pills_call
           "Reminder created successfully! I'll remind you about 'Take medicine' on 25 Dec 2024 at 08:00 PM."
           "Your reminder is set for 8 PM tomorrow.") as Hthm.
  cbv zeta in Hthm.
  destruct Hthm as [Hrun _]; [reflexivity|reflexivity| |reflexivity|reflexivity|reflexivity|reflexivity|].
  - cbn. tauto.
  - rewrite Hrun. reflexivity.
Qed.

(** A provider that fails on its second turn, after a tool ran. *)
Lemma provider_error_gives_fixed_reply_witness :
  snd (run_agent langgraph_defaults "patient-1" "pair-1" "remind me" []
         (mkRun Scripts.failing_world []))
  = inr "I'm having trouble right now. Let me try to help you anyway.".
Proof.
  set (run := run_agent langgraph_defaults "patient-1" "pair-1" "remind me" []
                (mkRun Scripts.failing_world [])).
  eapply (provider_error_gives_fixed_reply langgraph_defaults
            "patient-1" "pair-1" "remind me" []
            (mkRun Scripts.failing_world []) (fst run) (snd run) (trace (fst run))).
  - apply surjective_pairing.
  - reflexivity.
  - vm_compute. right. right. left. reflexivity.
Defined.

(** A provider that never stops asking for a tool: the graph library
    gives up after [recursion_limit] steps (thirteen model turns and
    twelve tool runs), and [run_agent] answers with its fixed sentence. *)
Example insistent_provider_hits_recursion_limit :
  snd (run_agent langgraph_defaults "patient-1" "pair-1" "what do I have today?" []
         (mkRun Scripts.insistent_world []))
  = inr RUN_ERROR_REPLY
  /\ length (trace (fst (run_agent langgraph_defaults "patient-1" "pair-1"
                            "what do I have today?" []
                            (mkRun Scripts.insistent_world []))))
     = recursion_limit.
Proof. split; vm_compute; reflexivity. Qed.

End AgentFacts.


(** * Further properties *)

(** ** Strings *)

Module StringMore.

Lemma append_nil_r (s : string) : s +:+ "" = s.
Proof.
  induction s as [|c s IH]; [reflexivity|].
  change (String c s +:+ "") with (String c (s +:+ "")). now rewrite IH.
Qed.

Lemma append_assoc (s t u : string) : (s +:+ t) +:+ u = s +:+ (t +:+ u).
Proof.
  induction s as [|c s IH]; [reflexivity|].
  change (String c s +:+ t) with (String c (s +:+ t)).
  change (String c (s +:+ t) +:+ u) with (String c ((s +:+ t) +:+ u)).
  now rewrite IH.
Qed.

Lemma append_inv_head (s a b : string) : s +:+ a = s +:+ b -> a = b.
Proof.
  induction s as [|c s IH]; [trivial|].
  change (String c s +:+ a) with (String c (s +:+ a)).
  change (String c s +:+ b) with (String c (s +:+ b)).
  intros [= Heq]. auto.
Qed.

(** A part of a joined text occurs in it. *)
Lemma join_occurs (sep x : string) (parts : list string) :
  In x parts -> exists before after, join sep parts = before +:+ x +:+ after.
Proof.
  induction parts as [|p rest IH]; [intros []|].
  intros [->|Hin].
  - destruct rest as [|q rest].
    + exists "", "". cbn [join]. now rewrite append_nil_r.
    + exists "", (sep +:+ join sep (q :: rest)). reflexivity.
  - destruct rest as [|q rest]; [destruct Hin|].
    destruct (IH Hin) as (b & a & Hjoin).
    exists (p +:+ sep +:+ b), a.
    change (join sep (p :: q :: rest)) with (p +:+ sep +:+ join sep (q :: rest)).
    rewrite Hjoin. now rewrite !append_assoc.
Qed.

End StringMore.



(** ** Conversation memory *)

Module MemoryMore.
Import Memory MemoryFacts.

Lemma get_agent_history_snd p m :
  snd (get_agent_history p m) = history p m.
Proof.
  unfold get_agent_history, history. cbn.
  destruct (m !! p) as [l|] eqn:Hl; [now rewrite Hl|].
  now rewrite lookup_insert_eq.
Qed.

(** X1.  Reading a patient's history returns what is stored for the patient
    (nothing for a patient never seen), creates the patient's key, and
    changes no patient's history; reading again returns the same list and
    changes nothing at all. *)
Theorem get_agent_history_reads :
  forall (patient_id : string) (m : gmap string (list HistoryEntry)),
    let (m', h) := get_agent_history patient_id m in
    h = history patient_id m
    /\ m' !! patient_id = Some h
    /\ (forall q, history q m' = history q m)
    /\ get_agent_history patient_id m' = (m', h).
Proof.
  intros p m. unfold get_agent_history, history.
  destruct (m !! p) as [l|] eqn:Hl.
  - cbn. rewrite !Hl. cbn. now repeat split.
  - cbn. rewrite !lookup_insert_eq. cbn. split; [reflexivity|].
    split; [reflexivity|]. split; [|reflexivity].
    intros q. destruct (decide (p = q)) as [<-|Hne].
    + now rewrite lookup_insert_eq, Hl.
    + now rewrite lookup_insert_ne.
Qed.

(** X2.  Appending and then reading: the new entry is the last one of the
    list read back, the list is the old one plus the entry when the old one
    had fewer than ten entries, and otherwise the old one without its first
    entry plus the new entry. *)
Theorem add_then_get_agent_history :
  forall (patient_id role content : string) (m : gmap string (list HistoryEntry)),
    length (history patient_id m) <= 10 ->
    let h := snd (get_agent_history patient_id
                    (add_to_agent_history patient_id role content m)) in
    last h = Some (mkEntry role content)
    /\ h = (if Nat.ltb (length (history patient_id m)) 10
            then history patient_id m
            else drop 1 (history patient_id m)) ++ [mkEntry role content].
Proof.
  intros p r c m Hlen h.
  assert (Hh : h = last_n 10 (history p m ++ [mkEntry r c])).
  { unfold h. rewrite get_agent_history_snd. apply history_add_same. }
  assert (Hshape : h = (if Nat.ltb (length (history p m)) 10
                        then history p m else drop 1 (history p m))
                       ++ [mkEntry r c]).
  { rewrite Hh. unfold last_n. rewrite length_app. cbn [length].
    destruct (Nat.ltb_spec (length (history p m)) 10) as [Hlt|Hge].
    - replace (length (history p m) + 1 - 10) with 0 by lia. reflexivity.
    - replace (length (history p m) + 1 - 10) with 1 by lia.
      rewrite drop_app. replace (1 - length (history p m)) with 0 by lia.
      reflexivity. }
  split; [|exact Hshape]. rewrite Hshape. apply last_snoc.
Qed.

Lemma add_then_get_agent_history_witness :
  snd (get_agent_history "p7" (add_to_agent_history "p7" "user" "hello"
                                 agent_conversations_init))
  = [] ++ [mkEntry "user" "hello"].
Proof.
  apply (add_then_get_agent_history "p7" "user" "hello" agent_conversations_init).
  vm_compute. lia.
Defined.

(** X3.  Appending for one patient changes no other patient's history, and
    never removes a patient from the memory. *)
Theorem add_to_agent_history_isolated :
  forall (patient_id role content other : string)
         (m : gmap string (list HistoryEntry)),
    (other <> patient_id ->
       add_to_agent_history patient_id role content m !! other = m !! other)
    /\ (is_Some (m !! other) ->
          is_Some (add_to_agent_history patient_id role content m !! other)).
Proof.
  intros p r c q m.
  assert (Hother : q <> p -> add_to_agent_history p r c m !! q = m !! q).
  { intros Hne. unfold add_to_agent_history. cbv zeta.
    destruct (m !! p); destruct (Nat.ltb _ _); now rewrite !lookup_insert_ne. }
  split; [exact Hother|].
  intros Hsome. destruct (decide (q = p)) as [->|Hne].
  - unfold add_to_agent_history. cbv zeta.
    destruct (m !! p); destruct (Nat.ltb _ _); rewrite lookup_insert_eq; eauto.
  - now rewrite Hother.
Qed.

End MemoryMore.


(** ** Speech to text *)

Module SttMore_Facts.
Import Stt SttMore SttFacts StringMore.

(** *** Paths *)

Lemma ends_with_slash_app (a b : string) :
  truthy b = true -> ends_with_slash (a +:+ b) = ends_with_slash b.
Proof.
  intros Hb. induction a as [|c a IH]; [reflexivity|].
  change (String c a +:+ b) with (String c (a +:+ b)).
  cbn [ends_with_slash]. rewrite IH.
  destruct (a +:+ b) eqn:Hab; [|reflexivity].
  destruct a as [|c' a].
  - change ("" +:+ b) with b in Hab. now rewrite Hab in Hb.
  - discriminate Hab.
Qed.

Lemma truthy_app (a b : string) : truthy b = true -> truthy (a +:+ b) = true.
Proof. intros Hb. now destruct a. Qed.

(** The directory a byte entry point works in, and a file in it. *)
Lemma path_join_file (a dir file : string) :
  truthy dir = true -> ends_with_slash dir = false ->
  String.prefix "/" dir = false -> String.prefix "/" file = false ->
  path_join a dir = joined_prefix a +:+ dir
  /\ path_join (path_join a dir) file
     = joined_prefix a +:+ dir +:+ "/" +:+ file.
Proof.
  intros Hfull Hslash Hdir Hfile.
  assert (Hjoin : path_join a dir = joined_prefix a +:+ dir).
  { unfold path_join, joined_prefix. rewrite Hdir.
    destruct (negb (truthy a) || ends_with_slash a); [reflexivity|].
    now rewrite append_assoc. }
  split; [exact Hjoin|].
  rewrite Hjoin. unfold path_join at 1. rewrite Hfile.
  rewrite truthy_app, ends_with_slash_app, Hslash by assumption.
  cbn [negb orb]. now rewrite !append_assoc.
Qed.

(** The two byte entry points never write to the same temporary path. *)
Lemma temp_paths_differ w w' j k :
  cwd w' = cwd w ->
  temp_path_of "temp_audio" "voice_" w j <> temp_path_of "temp_whisper" "whisper_" w' k.
Proof.
  intros Hcwd. unfold temp_path_of. rewrite Hcwd.
  destruct (path_join_file (cwd w) "temp_audio"
              ("voice_" +:+ String.substring 0 8 (uuid_hex w (uuid_calls w + j)) +:+ ".wav"))
    as [_ ->]; try reflexivity.
  destruct (path_join_file (cwd w) "temp_whisper"
              ("whisper_" +:+ String.substring 0 8 (uuid_hex w' (uuid_calls w' + k)) +:+ ".wav"))
    as [_ ->]; try reflexivity.
  intros Heq. apply append_inv_head in Heq. discriminate Heq.
Qed.

(** Nor does the temporary file of [stt_service] stand where the local
    service makes its directory. *)
Lemma temp_path_not_dir w j :
  temp_path_of "temp_audio" "voice_" w j <> path_join (cwd w) "temp_whisper".
Proof.
  unfold temp_path_of.
  destruct (path_join_file (cwd w) "temp_audio"
              ("voice_" +:+ String.substring 0 8 (uuid_hex w (uuid_calls w + j)) +:+ ".wav"))
    as [_ ->]; try reflexivity.
  destruct (path_join_file (cwd w) "temp_whisper" "x") as [-> _]; try reflexivity.
  intros Heq. apply append_inv_head in Heq. discriminate Heq.
Qed.


(** *** The offline byte path *)




(** *** [transcribe_audio] *)

(** [transcribe_audio] returns; of the files it touches only the
    temporary one of the local service. *)
Lemma transcribe_audio_cases path w :
  let temp_path := temp_path_of "temp_whisper" "whisper_" w 0 in
  exists w' answer,
    transcribe_audio path w = (w', inr answer)
    /\ same_machine w w'
    /\ (forall p, p <> temp_path -> fs w' !! p = fs w !! p)
    /\ (os_error w (Unlink temp_path) = None -> fs w !! temp_path = None ->
        fs w' !! temp_path = None)
    /\ (fs w !! path = None -> w' = w /\ answer = None).
Proof.
  intros temp_path. unfold transcribe_audio.
  unfold bind at 1. unfold gets at 1.
  destruct (USE_LOCAL_WHISPER w);
    cbv beta iota zeta delta [bind gets try_except try_except_on read_file ret].
  - destruct (fs w !! path) as [audio|] eqn:Hfile.
    + destruct (from_bytes_cases audio "base" w)
        as (w' & answer & -> & Hsame & Hothers & Hgone & _).
      exists w', answer. cbv beta iota.
      split; [reflexivity|]. split; [exact Hsame|]. split; [exact Hothers|].
      split; [exact Hgone|discriminate].
    + exists w, None. cbn.
      split; [reflexivity|]. split; [apply same_machine_refl|]. now repeat split.
  - destruct (fs w !! path) as [audio|] eqn:Hfile.
    + destruct (remote_engine w audio) as [e|t].
      * exists w, None. cbv beta iota.
        split; [now destruct (is_FileNotFoundError e)|].
        split; [apply same_machine_refl|].
        split; [reflexivity|]. split; [auto|discriminate].
      * eexists w, _. cbv beta iota.
        split; [reflexivity|]. split; [apply same_machine_refl|].
        split; [reflexivity|]. split; [auto|discriminate].
    + exists w, None. cbn.
      split; [reflexivity|]. split; [apply same_machine_refl|]. now repeat split.
Qed.

(** X6.  [transcribe_audio] never raises; for a path at which there is no file
    it answers with the absence signal on both paths, and the world is as
    it was. *)
Theorem transcribe_audio_missing_file :
  forall (audio_file_path : string) (w : World),
    (exists (w' : World) (answer : option string),
       transcribe_audio audio_file_path w = (w', inr answer))
    /\ (fs w !! audio_file_path = None ->
        transcribe_audio audio_file_path w = (w, inr None)).
Proof.
  intros path w.
  destruct (transcribe_audio_cases path w)
    as (w' & answer & Hrun & _ & _ & _ & Hmissing).
  split; [eauto|].
  intros Hfile. destruct (Hmissing Hfile) as [-> ->]. exact Hrun.
Qed.


(** *** [transcribe_audio_bytes] *)

Lemma temp_path_next dir prefix w x :
  cwd x = cwd w -> uuid_hex x = uuid_hex w -> uuid_calls x = S (uuid_calls w) ->
  temp_path_of dir prefix x 0 = temp_path_of dir prefix w 1.
Proof.
  intros Hcwd Hhex Hcalls. unfold temp_path_of. rewrite Hcwd, Hhex, Hcalls.
  now replace (S (uuid_calls w) + 0) with (uuid_calls w + 1) by lia.
Qed.

(** The byte entry point of [stt_service], whatever the operating system
    refuses: it raises what the making of its directory raises and nothing
    else; of the files it touches only the two temporary ones, each of
    which is gone afterwards when the system lets it be deleted. *)
Lemma transcribe_audio_bytes_cases audio w :
  let tp := temp_path_of "temp_audio" "voice_" w 0 in
  let tw := temp_path_of "temp_whisper" "whisper_" w 1 in
  match make_temp_dir "temp_audio" w with
  | (w1, inl e) => transcribe_audio_bytes audio w = (w, inl e)
  | (_, inr _) =>
      exists w' answer,
        transcribe_audio_bytes audio w = (w', inr answer)
        /\ (forall p, p <> tp -> p <> tw -> fs w' !! p = fs w !! p)
        /\ (os_error w (Unlink tw) = None -> fs w !! tw = None ->
            fs w' !! tw = None)
        /\ (os_error w (Unlink tp) = None -> fs w !! tp = None ->
            fs w' !! tp = None)
  end.
Proof.
  intros tp tw.
  assert (Hne : tp <> tw) by now apply temp_paths_differ.
  assert (Htp : path_join (path_join (cwd w) "temp_audio")
                  ("voice_" +:+ String.substring 0 8 (uuid_hex w (uuid_calls w)) +:+ ".wav")
                = tp).
  { unfold tp, temp_path_of. now rewrite Nat.add_0_r. }
  clearbody tp.
  unfold transcribe_audio_bytes, make_temp_dir. run_files.
  do 3 (run_step; [reflexivity|]).
  rewrite Htp.
  destruct (os_error w (OpenWrite tp)) eqn:Hwrite; run_files.
  { (* the write is refused *)
    repeat run_step.
    all: eexists _, _; (split; [reflexivity|]); cbn [fs set_fs].
    all: split; [intros p Hp _; now rewrite ?lookup_delete_ne by auto|].
    all: split; [intros _ Hfresh; now rewrite ?lookup_delete_ne by auto|].
    all: intros; try discriminate; rewrite ?lookup_delete_eq; auto. }
  destruct (Nat.eqb (String.length audio) 0) eqn:Hsize; run_files.
  { (* no audio *)
    repeat run_step.
    all: eexists _, _; (split; [reflexivity|]); cbn [fs set_fs].
    all: split; [intros p Hp _; now rewrite ?lookup_delete_ne, ?lookup_insert_ne by auto|].
    all: split; [intros _ Hfresh; now rewrite ?lookup_delete_ne, ?lookup_insert_ne by auto|].
    all: intros; try discriminate; rewrite ?lookup_delete_eq; auto. }
  match goal with
  | |- context [transcribe_audio tp ?x] =>
      set (w2 := x);
      destruct (transcribe_audio_cases tp w2)
        as (w3 & answer & -> & Hsame & Hothers & Hgone & _)
  end.
  rewrite (temp_path_next "temp_whisper" "whisper_" w w2) in Hothers, Hgone
    by reflexivity.
  fold tw in Hothers, Hgone.
  destruct Hsame as (_ & _ & Herr & _).
  assert (Hfile : fs w3 !! tp = Some audio).
  { rewrite Hothers by exact Hne. apply lookup_insert_eq. }
  change (os_error w2) with (os_error w) in Herr.
  run_files. rewrite !Hfile. run_files. rewrite Herr.
  run_step.
  all: eexists _, _; (split; [reflexivity|]); cbn [fs set_fs].
  all: split; [intros p Hp Hp'; rewrite ?lookup_delete_ne, Hothers by auto;
               unfold w2; cbn [fs set_fs]; now rewrite lookup_insert_ne by auto|].
  all: split; [intros Hunlink Hfresh; rewrite ?lookup_delete_ne by auto;
               apply Hgone; [exact Hunlink|];
               unfold w2; cbn [fs set_fs]; now rewrite lookup_insert_ne by auto|].
  all: intros; try discriminate; rewrite ?lookup_delete_eq; auto.
Qed.

(** X23.  The byte entry point of [stt_service] can raise: the working
    directory and the directory of the temporary files are obtained
    before its [try], so an error of [os.getcwd] or [os.makedirs] (a file
    standing in the place of the directory among them) reaches the
    caller, with nothing written.  Nothing else does: once the directory
    is there, the function returns. *)
Theorem transcribe_audio_bytes_raises_only_from_setup :
  forall (audio : string) (w : World),
    match make_temp_dir "temp_audio" w with
    | (_, inl e) => transcribe_audio_bytes audio w = (w, inl e)
    | (_, inr _) =>
        exists (w' : World) (answer : option string),
          transcribe_audio_bytes audio w = (w', inr answer)
    end.
Proof.
  intros audio w. pose proof (transcribe_audio_bytes_cases audio w) as Hcases.
  cbv zeta in Hcases.
  destruct (make_temp_dir "temp_audio" w) as [w1 [e|dir]]; [exact Hcases|].
  destruct Hcases as (w' & answer & Hrun & _). eauto.
Qed.



(** *** When the operating system refuses nothing *)

Lemma cleanup_temp_returns p w :
  exists w', cleanup_temp p w = (w', inr tt).
Proof.
  unfold cleanup_temp. run_files. repeat run_step; eauto.
Qed.

Lemma snd_try_finally_cleanup {A} (body : M World A) p w :
  snd (try_finally body (cleanup_temp p) w) = snd (body w).
Proof.
  unfold try_finally. destruct (body w) as [w1 r].
  now destruct (cleanup_temp_returns p w1) as [w2 ->].
Qed.

Lemma from_bytes_obliging audio model_name w :
  obliging w -> fs w !! path_join (cwd w) "temp_whisper" = None ->
  snd (transcribe_audio_from_bytes audio model_name w)
  = inr (if model_available w then heard_locally w audio else None).
Proof.
  intros Hob Hdir. unfold transcribe_audio_from_bytes, model_available, heard_locally.
  run_files. repeat run_step; try reflexivity.
  all: try match goal with
           | H : os_error _ _ = Some _ |- _ => rewrite Hob in H; discriminate H
           end.
  all: try congruence.
  all: destruct (strip _); discriminate.
Qed.

Lemma transcribe_audio_obliging path audio w :
  fs w !! path = Some audio ->
  obliging w -> fs w !! path_join (cwd w) "temp_whisper" = None ->
  snd (transcribe_audio path w)
  = inr (if USE_LOCAL_WHISPER w
         then (if model_available w then heard_locally w audio else None)
         else heard_remotely w audio).
Proof.
  intros Hfile Hob Hdir. unfold transcribe_audio, heard_remotely.
  unfold bind at 1. unfold gets at 1.
  destruct (USE_LOCAL_WHISPER w);
    cbv beta iota zeta delta [bind gets try_except try_except_on read_file ret];
    rewrite Hfile.
  - pose proof (from_bytes_obliging audio "base" w Hob Hdir) as Hrun.
    destruct (transcribe_audio_from_bytes audio "base" w) as [w' [e|answer]];
      cbn [snd] in Hrun; [discriminate Hrun|]. exact Hrun.
  - destruct (remote_engine w audio) as [e|t]; [|reflexivity].
    now destruct (is_FileNotFoundError e).
Qed.

(** X7.  When the operating system refuses nothing and no file stands in
    the place of the two directories, the byte entry point does not raise,
    and its answer is the absence signal for empty audio, what the remote
    engine returned (as it is) when the online credential is set, and
    otherwise what the local engine heard, stripped, or the absence signal
    when that is blank, the engine raised or the model is not
    available. *)
Theorem transcribe_audio_bytes_answer :
  forall (audio : string) (w : World),
    obliging w ->
    fs w !! path_join (cwd w) "temp_audio" = None ->
    fs w !! path_join (cwd w) "temp_whisper" = None ->
    snd (transcribe_audio_bytes audio w)
    = inr (if Nat.eqb (String.length audio) 0 then None
           else if USE_LOCAL_WHISPER w
                then (if model_available w then heard_locally w audio else None)
                else heard_remotely w audio).
Proof.
  intros audio w Hob Hdir Hdir'.
  unfold transcribe_audio_bytes.
  cbv beta iota zeta delta [bind getcwd makedirs os_call gets uuid4_hex8 ret].
  rewrite !Hob. cbv beta iota. rewrite Hdir. cbv beta iota.
  rewrite snd_try_finally_cleanup.
  assert (Htp : path_join (path_join (cwd w) "temp_audio")
                  ("voice_" +:+ String.substring 0 8 (uuid_hex w (uuid_calls w)) +:+ ".wav")
                = temp_path_of "temp_audio" "voice_" w 0).
  { unfold temp_path_of. now rewrite Nat.add_0_r. }
  rewrite Htp. set (tp := temp_path_of "temp_audio" "voice_" w 0).
  run_files. rewrite Hob. run_files.
  destruct (Nat.eqb (String.length audio) 0); [reflexivity|].
  match goal with
  | |- context [transcribe_audio tp ?x] => set (w2 := x)
  end.
  assert (Hrun : snd (transcribe_audio tp w2)
                 = inr (if USE_LOCAL_WHISPER w
                        then (if model_available w then heard_locally w audio else None)
                        else heard_remotely w audio)).
  { apply (transcribe_audio_obliging tp audio w2).
    - apply lookup_insert_eq.
    - exact Hob.
    - unfold w2. cbn [fs set_fs cwd]. rewrite lookup_insert_ne; [exact Hdir'|].
      apply temp_path_not_dir. }
  destruct (transcribe_audio tp w2) as [w3 [e|answer]];
    cbn [snd] in Hrun; [discriminate Hrun|]. exact Hrun.
Qed.

Lemma transcribe_audio_bytes_answer_witness :
  snd (transcribe_audio_bytes "RIFFdata" silent_offline_world) = inr None.
Proof.
  apply (transcribe_audio_bytes_answer "RIFFdata" silent_offline_world);
    [intros c|..]; reflexivity.
Defined.

(** *** The file path of the local service *)


(** X10.  A blank recording on the file path: the answer is the empty string,
    where the byte path of the same service answers with the absence
    signal. *)
Theorem transcribe_audio_local_blank_is_empty_string :
  forall (audio_file_path model_name audio raw : string) (w : World),
    model_available w = true ->
    fs w !! audio_file_path = Some audio ->
    local_engine w audio = inr raw ->
    strip raw = "" ->
    snd (transcribe_audio_local audio_file_path model_name w) = inr (Some "")
    /\ snd (transcribe_audio_from_bytes audio model_name w) = inr None.
Proof.
  intros path model_name audio raw w Hmodel Hfile Hengine Hblank. split.
  - unfold model_available in Hmodel. unfold transcribe_audio_local.
    run_files.
    destruct (_model_loaded w); [|cbn in Hmodel; rewrite Hmodel];
      run_files; rewrite Hfile; run_files; now rewrite Hengine, Hblank.
  - exact (offline_absent_on_blank audio model_name w raw Hengine Hblank).
Qed.

Lemma transcribe_audio_local_blank_is_empty_string_witness :
  snd (transcribe_audio_local "/srv/a.wav" "base"
         (set_fs (fun files => <["/srv/a.wav" := "RIFFdata"]> files)
                 silent_offline_world))
  = inr (Some "").
Proof.
  apply (transcribe_audio_local_blank_is_empty_string
           "/srv/a.wav" "base" "RIFFdata" "   ").
  - reflexivity.
  - vm_compute. reflexivity.
  - reflexivity.
  - reflexivity.
Defined.

End SttMore_Facts.


(** ** The tools *)

Module ToolsMore.
Import Tools SpecSide ToolFacts DeleteFacts ListFacts StoreInvariants StringMore.

Section AnyStore.
Context `{UnicodeData} {W : Type} `{DataStore W} `{Clock W}.

(** X11.  [create_reminder] never raises, whatever the store does, and it
    confirms only when the date and time parsed, the client was obtained
    and the insert returned a row; every other answer starts with
    "Error:". *)
Theorem create_reminder_confirms_only_after_insert :
  forall (pair_id title date time : string) (w : W),
  exists (w' : W) (answer : string),
    create_reminder pair_id title date time w = (w', inr answer)
    /\ (String.prefix "Error:" answer = true
        \/ (answer = "Reminder created successfully! I'll remind you about '"
                     +:+ title +:+ "' on " +:+ date +:+ " at " +:+ time +:+ "."
            /\ exists dt w1 row rows,
                 parse_reminder_datetime date time = inr dt
                 /\ get_supabase_client w = (w1, inr tt)
                 /\ reminders_insert pair_id title date time w1
                    = (w', inr (row :: rows)))).
Proof.
  intros pair_id title date time w.
  destruct (parse_reminder_datetime date time) as [e|dt] eqn:Hparse.
  - rewrite (create_reminder_rejects _ _ _ _ _ _ Hparse).
    eexists _, _. split; [reflexivity|]. now left.
  - unfold create_reminder. rewrite Hparse.
    cbv beta iota zeta delta [bind ret try_except try_except_on].
    destruct (get_supabase_client w) as [w1 [e|[]]] eqn:Hclient.
    + eexists _, _. split; [reflexivity|]. now left.
    + destruct (reminders_insert pair_id title date time w1)
        as [w2 [e|[|row rows]]] eqn:Hinsert;
        eexists _, _; (split; [reflexivity|]); [now left|now left|].
      right. split; [reflexivity|]. now exists dt, w1, row, rows.
Qed.

(** X12.  [list_reminders] never raises and issues one query: when the client
    or the query raises, the answer is the fetch error with the exception's
    text; when the store answers, the answer does not start with "Error:".
    In both cases the world is the one the query left. *)
Theorem list_reminders_reports_store_failure :
  forall (pair_id : string) (w : W),
    match (get_supabase_client ;;; reminders_select_ordered pair_id) w with
    | (w1, inl e) =>
        list_reminders pair_id w
        = (w1, inr ("Error: Failed to fetch reminders - " +:+ str_exception e))
    | (w1, inr rows) =>
        exists answer,
          list_reminders pair_id w = (w1, inr answer)
          /\ String.prefix "Error:" answer = false
    end.
Proof.
  intros pair_id w. unfold list_reminders.
  cbv beta iota zeta delta [bind ret gets try_except try_except_on].
  destruct (get_supabase_client w) as [w1 [e|[]]]; [reflexivity|].
  destruct (reminders_select_ordered pair_id w1) as [w2 [e|[|r rows]]];
    [reflexivity|now eexists|].
  destruct (fold_left _ _ _); now eexists.
Qed.

(** X13.  [delete_reminder] never raises, and it confirms a deletion only when
    the fetch succeeded, exactly one fetched reminder matched, and the
    delete query for that reminder's id succeeded. *)
Theorem delete_reminder_confirms_only_after_delete :
  forall (pair_id fragment : string) (w : W),
  exists (w' : W) (answer : string),
    delete_reminder pair_id fragment w = (w', inr answer)
    /\ truthy answer = true
    /\ (String.prefix "I've deleted" answer = true ->
        exists w1 w2 rows r,
          get_supabase_client w = (w1, inr tt)
          /\ reminders_select pair_id w1 = (w2, inr rows)
          /\ List.filter (title_matches fragment) rows = [r]
          /\ reminders_delete (rid r) w2 = (w', inr tt)).
Proof.
  intros pair_id fragment w. unfold delete_reminder.
  cbv beta iota zeta delta [bind ret try_except try_except_on].
  destruct (get_supabase_client w) as [w1 [e|[]]] eqn:Hclient.
  { eexists _, _. split; [reflexivity|]. split; [reflexivity|discriminate]. }
  destruct (reminders_select pair_id w1) as [w2 [e|[|r0 rows]]] eqn:Hselect.
  1,2: eexists _, _; (split; [reflexivity|]); split; [reflexivity|discriminate].
  destruct (List.filter (title_matches fragment) (r0 :: rows))
    as [|r [|r' more]] eqn:Hfilter.
  1,3: eexists _, _; (split; [reflexivity|]); split; [reflexivity|discriminate].
  destruct (reminders_delete (rid r) w2) as [w3 [e|[]]] eqn:Hdelete.
  - eexists _, _. split; [reflexivity|]. split; [reflexivity|discriminate].
  - eexists _, _. split; [reflexivity|]. split; [reflexivity|].
    intros _. now exists w1, w2, (r0 :: rows), r.
Qed.

(** X14.  Which sentence [send_emergency_alert] says: once the client was
    obtained the patient is told that the caregiver was notified, whether
    the alert could be stored or the insert raised; only when the client
    itself cannot be obtained does the tool fall back to the other
    sentence. *)
Theorem send_emergency_alert_sentence :
  forall (pair_id reason : string) (w : W),
    match get_supabase_client w with
    | (w1, inr _) =>
        exists w',
          send_emergency_alert pair_id reason w
          = (w', inr "I've notified your caregiver about this situation. Help is on the way. Please stay calm.")
    | (w1, inl _) =>
        send_emergency_alert pair_id reason w
        = (w1, inr "I'm here with you. Let me help you feel safe.")
    end.
Proof.
  intros pair_id reason w. unfold send_emergency_alert.
  cbv beta iota zeta delta [bind ret gets try_except try_except_on].
  destruct (get_supabase_client w) as [w1 [e|[]]]; [reflexivity|].
  destruct (emergency_alerts_insert _ w1) as [w2 [e|[]]]; now eexists.
Qed.

End AnyStore.

(** *** On the in-memory store *)

Lemma of_pair_app p rows rows' :
  MemStore.of_pair p (rows ++ rows')
  = MemStore.of_pair p rows ++ MemStore.of_pair p rows'.
Proof. apply List.filter_app. Qed.

Lemma of_pair_own p i t d tm :
  MemStore.of_pair p [mkReminder i p t d tm] = [mkReminder i p t d tm].
Proof. unfold MemStore.of_pair. cbn. now rewrite String.eqb_refl. Qed.

Lemma contains_refl s : contains s s = true.
Proof.
  apply contains_spec. exists "", "".
  now rewrite append_nil_r.
Qed.

Section AnyTables.
Context `{UnicodeData}.

(** What a successful [create_reminder] leaves in the store. *)
Lemma create_reminder_store pair_id title date time dt (s : MemStore.t) :
  parse_reminder_datetime date time = inr dt ->
  fst (create_reminder pair_id title date time s)
  = MemStore.mk
      (MemStore.reminders s
         ++ [mkReminder (MemStore.next_id s) pair_id title date time])
      (MemStore.emergency_alerts s) (S (MemStore.next_id s)) (MemStore.clock s).
Proof. intros Hparse. unfold create_reminder. now rewrite Hparse. Qed.

(** X15.  Creating a reminder that is not in the past and then listing the
    pair's reminders: the answer contains a numbered line with the title,
    the date and the time as they were given. *)
Theorem create_then_list_reminders :
  forall (pair_id title the_date the_time : string) (s : MemStore.t) (dt : Datetime.datetime),
    parse_reminder_datetime the_date the_time = inr dt ->
    Datetime.ltb dt (MemStore.clock s) = false ->
    let s1 := fst (create_reminder pair_id title the_date the_time s) in
    exists (n : nat) (answer : string),
      1 <= n
      /\ list_reminders pair_id s1 = (s1, inr answer)
      /\ contains (str_nat n +:+ ". " +:+ title +:+ " - " +:+ the_date
                   +:+ " at " +:+ the_time) answer = true.
Proof.
  intros pair_id title the_date the_time s dt Hparse Hfuture s1.
  unfold s1. rewrite (create_reminder_store _ _ _ _ dt _ Hparse).
  set (r := mkReminder (MemStore.next_id s) pair_id title the_date the_time).
  set (s2 := MemStore.mk _ _ _ _).
  set (rows := MemStore.order_by_date_time
                 (MemStore.of_pair pair_id (MemStore.reminders s2))).
  assert (Hrow : In r rows).
  { unfold rows. eapply Permutation_in.
    - symmetry. apply order_by_date_time_perm.
    - unfold s2. cbn [MemStore.reminders].
      rewrite of_pair_app. apply in_or_app. right.
      unfold r. rewrite of_pair_own. now left. }
  assert (Hup : In r (List.filter (is_upcoming (MemStore.clock s)) rows)).
  { apply filter_In. split; [exact Hrow|].
    unfold is_upcoming, r. cbn [date time]. now rewrite Hparse, Hfuture. }
  unfold list_reminders. run_store. fold rows.
  destruct rows as [|r0 rows']; [destruct Hrow|].
  cbv beta. change (MemStore.clock s2) with (MemStore.clock s).
  rewrite !keep_upcoming_filter. cbn [app].
  destruct (List.filter (is_upcoming (MemStore.clock s)) (r0 :: rows'))
    as [|u upcoming] eqn:Hfilter; [destruct Hup|].
  apply list_elem_of_In, list_elem_of_lookup in Hup as [i Hi].
  exists (S i). eexists. split; [lia|]. split; [reflexivity|].
  apply contains_spec.
  destruct (join_occurs LF (reminder_line (S i) r)
              (imap (fun i reminder => reminder_line (S i) reminder) (u :: upcoming)))
    as (b & a & Hjoin).
  { apply list_elem_of_In, list_elem_of_lookup. exists i.
    rewrite list_lookup_imap, Hi. reflexivity. }
  rewrite Hjoin.
  exists ("You have " +:+ str_nat (length (u :: upcoming))
          +:+ " upcoming reminder(s):" +:+ LF +:+ b), a.
  change (reminder_line (S i) r)
    with (str_nat (S i) +:+ ". " +:+ title +:+ " - " +:+ the_date
          +:+ " at " +:+ the_time).
  now rewrite !append_assoc.
Qed.


Lemma filter_none {A} (f : A -> bool) (l : list A) :
  (forall x, In x l -> f x = false) -> List.filter f l = [].
Proof.
  induction l as [|x l IH]; intros Hall; [reflexivity|].
  cbn. rewrite (Hall x) by now left. apply IH. intros y Hy. apply Hall. now right.
Qed.

Lemma filter_all {A} (f : A -> bool) (l : list A) :
  (forall x, In x l -> f x = true) -> List.filter f l = l.
Proof.
  induction l as [|x l IH]; intros Hall; [reflexivity|].
  cbn. rewrite (Hall x) by now left. f_equal. apply IH.
  intros y Hy. apply Hall. now right.
Qed.

(** X16.  Creating a reminder and then deleting it by its own title, when no
    other reminder of the pair matches that title: the deletion is
    confirmed with the title, date and time given, and the stored
    reminders are exactly those from before the creation. *)
Theorem create_then_delete_reminder :
  forall (pair_id the_title the_date the_time : string) (s : MemStore.t)
         (dt : Datetime.datetime),
    parse_reminder_datetime the_date the_time = inr dt ->
    ids_below_next s ->
    (forall r, In r (MemStore.of_pair pair_id (MemStore.reminders s)) ->
               title_matches the_title r = false) ->
    let s1 := fst (create_reminder pair_id the_title the_date the_time s) in
    delete_reminder pair_id the_title s1
    = (MemStore.mk (MemStore.reminders s) (MemStore.emergency_alerts s)
                   (S (MemStore.next_id s)) (MemStore.clock s),
       inr ("I've deleted the reminder '" +:+ the_title +:+ "' scheduled for "
            +:+ the_date +:+ " at " +:+ the_time +:+ ".")).
Proof.
  intros pair_id the_title the_date the_time s dt Hparse Hids Hothers s1.
  unfold s1. rewrite (create_reminder_store _ _ _ _ dt _ Hparse).
  set (r := mkReminder (MemStore.next_id s) pair_id the_title the_date the_time).
  unfold delete_reminder. run_store. cbn [MemStore.reminders].
  assert (Hown : MemStore.of_pair pair_id [r] = [r]) by apply of_pair_own.
  rewrite !of_pair_app, !Hown.
  destruct (MemStore.of_pair pair_id (MemStore.reminders s) ++ [r])
    as [|r0 mine] eqn:Hmine; [now destruct (MemStore.of_pair _ _)|].
  rewrite <- Hmine, List.filter_app, (filter_none _ _ Hothers).
  assert (Hself : title_matches the_title r = true) by apply contains_refl.
  cbn [List.filter app]. rewrite Hself.
  unfold MemStore.delete_id. cbn [MemStore.reminders MemStore.emergency_alerts
                                  MemStore.next_id MemStore.clock rid r].
  rewrite List.filter_app. cbn [List.filter rid r].
  rewrite Nat.eqb_refl. cbn [negb]. rewrite app_nil_r.
  rewrite filter_all; [reflexivity|].
  intros x Hx. apply negb_true_iff, Nat.eqb_neq. specialize (Hids x Hx). unfold r. cbn. lia.
Qed.


(** X17.  With ids that are unique, a confirmed deletion removes exactly the one
    matching reminder: every other stored reminder, of this pair or of any
    other, stays where it was. *)
Theorem delete_reminder_removes_exactly_one :
  forall (pair_id fragment : string) (s : MemStore.t) (r : Reminder),
    unique_ids s ->
    List.filter (title_matches fragment)
      (MemStore.of_pair pair_id (MemStore.reminders s)) = [r] ->
    exists front back,
      MemStore.reminders s = front ++ r :: back
      /\ MemStore.reminders (fst (delete_reminder pair_id fragment s))
         = front ++ back.
Proof.
  intros pair_id fragment s r Hunique Hmatch.
  assert (Hin : In r (MemStore.reminders s)).
  { assert (Hr : In r [r]) by now left. rewrite <- Hmatch in Hr.
    apply filter_In in Hr as [Hr _]. now apply filter_In in Hr as [Hr _]. }
  apply in_split in Hin as (front & back & Hsplit).
  exists front, back. split; [exact Hsplit|].
  unfold delete_reminder. run_store.
  destruct (MemStore.of_pair pair_id (MemStore.reminders s)) as [|r0 mine] eqn:Hmine;
    [discriminate|].
  rewrite Hmatch. cbn [fst]. unfold MemStore.delete_id. cbn [MemStore.reminders].
  unfold unique_ids in Hunique. rewrite Hsplit in *.
  rewrite map_app in Hunique. cbn [List.map] in Hunique.
  apply NoDup_app in Hunique as (Hfront & Hcross & Hback).
  apply NoDup_cons in Hback as [Hnotback _].
  rewrite List.filter_app. cbn [List.filter]. rewrite Nat.eqb_refl. cbn [negb].
  rewrite !filter_all; [reflexivity| |].
  - intros x Hx. apply negb_true_iff, Nat.eqb_neq. intros Heq.
    apply Hnotback. rewrite <- Heq. apply list_elem_of_In, in_map, Hx.
  - intros x Hx. apply negb_true_iff, Nat.eqb_neq. intros Heq.
    apply (Hcross (rid x)).
    + apply list_elem_of_In, in_map, Hx.
    + rewrite Heq. now left.
Qed.


(** X18.  The empty fragment matches every title: in a pair with a single
    reminder, deleting with the empty fragment deletes that reminder. *)
Theorem delete_reminder_empty_fragment :
  forall (pair_id : string) (s : MemStore.t) (r : Reminder),
    MemStore.of_pair pair_id (MemStore.reminders s) = [r] ->
    delete_reminder pair_id "" s
    = (MemStore.delete_id (rid r) s,
       inr ("I've deleted the reminder '" +:+ title r +:+ "' scheduled for "
            +:+ date r +:+ " at " +:+ time r +:+ ".")).
Proof.
  intros pair_id s r Hmine. unfold delete_reminder. run_store. rewrite Hmine.
  assert (Hmatch : title_matches "" r = true).
  { unfold title_matches. rewrite (lower_isascii "" eq_refl).
    now destruct (lower (title r)). }
  cbn [List.filter]. rewrite Hmatch. reflexivity.
Qed.


End AnyTables.

Lemma create_then_list_reminders_witness :
  exists (n : nat) (answer : string),
    1 <= n
    /\ list_reminders "pair-1"
         (fst (create_reminder "pair-1" "Walk" "02 Jan 2025" "09:15 AM"
                 Examples.two_reminders))
       = (fst (create_reminder "pair-1" "Walk" "02 Jan 2025" "09:15 AM"
                 Examples.two_reminders), inr answer)
    /\ contains (str_nat n +:+ ". " +:+ "Walk" +:+ " - " +:+ "02 Jan 2025"
                 +:+ " at " +:+ "09:15 AM") answer = true.
Proof.
  apply (create_then_list_reminders "pair-1" "Walk" "02 Jan 2025" "09:15 AM"
           Examples.two_reminders (Datetime.mkDatetime 2025 1 2 9 15 0 0)).
  - vm_compute. reflexivity.
  - vm_compute. reflexivity.
Defined.

Lemma create_then_delete_reminder_witness :
  delete_reminder "pair-1" "Walk"
    (fst (create_reminder "pair-1" "Walk" "02 Jan 2025" "09:15 AM"
            Examples.two_reminders))
  = (MemStore.mk [Examples.dentist; Examples.pills] [] 4 Examples.morning,
     inr "I've deleted the reminder 'Walk' scheduled for 02 Jan 2025 at 09:15 AM.").
Proof.
  apply (create_then_delete_reminder "pair-1" "Walk" "02 Jan 2025" "09:15 AM"
           Examples.two_reminders (Datetime.mkDatetime 2025 1 2 9 15 0 0)).
  - vm_compute. reflexivity.
  - intros r Hr. vm_compute in Hr. destruct Hr as [<-|[<-|[]]]; vm_compute; lia.
  - intros r Hr. vm_compute in Hr. destruct Hr as [<-|[<-|[]]]; reflexivity.
Defined.

Lemma delete_reminder_removes_exactly_one_witness :
  exists front back,
    MemStore.reminders Examples.two_reminders = front ++ Examples.dentist :: back
    /\ MemStore.reminders (fst (delete_reminder "pair-1" "dent" Examples.two_reminders))
       = front ++ back.
Proof.
  apply (delete_reminder_removes_exactly_one "pair-1" "dent" Examples.two_reminders).
  - unfold unique_ids. cbn. apply NoDup_cons. split; [|apply NoDup_singleton].
    intros [= ]%list_elem_of_singleton.
  - vm_compute. reflexivity.
Defined.

Lemma delete_reminder_empty_fragment_witness :
  delete_reminder "pair-1" ""
    (MemStore.mk [Examples.pills] [] 3 Examples.morning)
  = (MemStore.mk [] [] 3 Examples.morning,
     inr "I've deleted the reminder 'Pills' scheduled for 01 Feb 2025 at 08:00 AM.").
Proof.
  apply (delete_reminder_empty_fragment "pair-1"
           (MemStore.mk [Examples.pills] [] 3 Examples.morning) Examples.pills).
  reflexivity.
Defined.

End ToolsMore.

(** ** More on the agent *)

Module AgentMore_Facts.
Import Agent AgentMore AgentFacts.

Lemma add_history_message_app acc msg :
  add_history_message acc msg = acc ++ message_of_entry msg.
Proof.
  unfold add_history_message, message_of_entry.
  destruct (String.eqb (role msg) "user"); [reflexivity|].
  destruct (String.eqb (role msg) "assistant"); [reflexivity|].
  now rewrite app_nil_r.
Qed.

Lemma fold_history conversation_history : forall acc,
  fold_left add_history_message conversation_history acc
  = acc ++ flat_map message_of_entry conversation_history.
Proof.
  induction conversation_history as [|msg rest IH]; intros acc; cbn.
  - now rewrite app_nil_r.
  - now rewrite IH, add_history_message_app, <- app_assoc.
Qed.

(** X19.  The message sequence [run_agent] starts the graph with is the
    conversation history in its order, every entry of role "user" as a
    human message and every entry of role "assistant" as an assistant
    message without tool requests, entries of any other role dropped,
    followed by the current message as a human message; the pair and
    patient identifiers are passed on unchanged. *)
Theorem initial_state_keeps_history_order :
  forall (patient_id pair_id message : string)
         (conversation_history : list HistoryEntry),
    let initial_state :=
      build_initial_state patient_id pair_id message conversation_history in
    messages initial_state
    = flat_map message_of_entry conversation_history ++ [HumanMessage message]
    /\ Agent.pair_id initial_state = pair_id
    /\ Agent.patient_id initial_state = patient_id.
Proof.
  intros patient_id pair_id message conversation_history.
  unfold build_initial_state. cbn.
  now rewrite fold_history.
Qed.

Section AnyWorld.
Context `{UnicodeData} {W : Type} `{DataStore W} `{Clock W} `{ModelProvider W}.
Variable lib : LangGraph.

Lemma create_agent_llm_without_key (w : W) :
  (GEMINI_API_KEY w = None \/ GEMINI_API_KEY w = Some "") ->
  create_agent_llm w
  = (w, inl (ValueError "GEMINI_API_KEY not found in environment")).
Proof.
  unfold create_agent_llm, try_except, try_except_on, bind, gets, raise.
  now intros [-> | ->].
Qed.

(** X20.  Without a model key in the environment (the variable is
    unset or empty), [run_agent] answers with the fixed reassuring
    sentence: the model client is never built, no model turn and no
    tool execution takes place, and the world is left as it was. *)
Theorem run_agent_without_key :
  forall (patient_id pair_id message : string)
         (conversation_history : list HistoryEntry) (r : Run W),
    (GEMINI_API_KEY (world r) = None \/ GEMINI_API_KEY (world r) = Some "") ->
    run_agent lib patient_id pair_id message conversation_history r
    = (r, inr RUN_ERROR_REPLY).
Proof.
  intros patient_id pair_id message conversation_history [w tr] Hkey.
  cbn [world] in Hkey.
  unfold run_agent, try_except, try_except_on, bind, lift, create_agent_graph.
  cbn [world trace]. unfold try_except, try_except_on.
  now rewrite (create_agent_llm_without_key w Hkey).
Qed.

(** X21.  The [agent] node never raises, whatever the environment and
    the model provider do: its update is always exactly one assistant
    message, and at most one model turn took place, on the system
    prompt followed by the messages of the state. *)
Theorem call_agent_never_raises :
  forall (state : AgentState) (r : Run W),
    exists r' text calls,
      call_agent state r = (r', inr [AIMessage text calls])
      /\ (trace r' = trace r
          \/ exists out,
               trace r'
               = trace r ++ [ModelTurn ([SystemMessage AGENT_SYSTEM_PROMPT]
                                        ++ messages state) out]).
Proof.
  intros state r.
  destruct (call_agent_cases state r)
    as (r' & [(Hrun & [Htr | (e & Htr)]) | (text & calls & Hrun & Htr)]).
  - exists r', MODEL_ERROR_REPLY, []. split; [exact Hrun|now left].
  - exists r', MODEL_ERROR_REPLY, []. split; [exact Hrun|]. right. eauto.
  - exists r', text, calls. split; [exact Hrun|]. right. eauto.
Qed.

(** X22.  When the model client can be built and the provider answers
    the first model turn with non-empty text and no tool request,
    [run_agent] returns that text after exactly one model turn, given
    the system prompt followed by the history and the current
    message, and without running any tool. *)
Theorem run_agent_direct_answer :
  forall (patient_id pair_id message : string)
         (conversation_history : list HistoryEntry)
         (w0 w1 : W) (before : list Event) (text : string),
    let input :=
      [SystemMessage AGENT_SYSTEM_PROMPT]
      ++ flat_map message_of_entry conversation_history
      ++ [HumanMessage message] in
    create_agent_llm w0 = (w0, inr tt) ->
    llm_invoke input w0 = (w1, inr (text, [])) ->
    truthy text = true ->
    run_agent lib patient_id pair_id message conversation_history (mkRun w0 before)
    = (mkRun w1 (before ++ [ModelTurn input (inr (AIMessage text []))]),
       inr text).
Proof.
  intros patient_id pair_id message conversation_history w0 w1 before text
    input Hllm Hanswer Htext.
  unfold run_agent, try_except, try_except_on, bind, lift, create_agent_graph.
  cbn [world trace]. unfold try_except, try_except_on. rewrite Hllm.
  unfold agent_invoke, recursion_limit.
  rewrite run_graph_agent_step.
  unfold call_agent, try_except, try_except_on, bind, lift, invoke_llm, ret.
  cbn [world trace]. rewrite Hllm.
  assert (Hinput : [SystemMessage AGENT_SYSTEM_PROMPT] ++
            messages (build_initial_state patient_id pair_id message
                        conversation_history) = input).
  { unfold input, build_initial_state. cbn [messages].
    now rewrite fold_history. }
  rewrite Hinput. cbn [world trace]. rewrite Hanswer.
  unfold should_continue. rewrite last_apply_update.
  now rewrite (first_ai_content_last _ text []);
    [|apply last_apply_update|exact Htext].
Qed.

End AnyWorld.

Lemma run_agent_without_key_witness :
  run_agent langgraph_defaults "patient-1" "pair-1" "Hello"
    [] (mkRun (Sim.mk Sim.fresh_store None []) [])
  = (mkRun (Sim.mk Sim.fresh_store None []) [], inr RUN_ERROR_REPLY).
Proof.
  apply (run_agent_without_key langgraph_defaults "patient-1" "pair-1" "Hello"
           [] (mkRun (Sim.mk Sim.fresh_store None []) [])).
  left. reflexivity.
Defined.

Lemma run_agent_direct_answer_witness :
  run_agent langgraph_defaults "patient-1" "pair-1" "I'm feeling sad"
    [mkEntry "user" "Hello"; mkEntry "system" "note"; mkEntry "assistant" "Hello, dear."]
    (mkRun (Sim.mk Sim.fresh_store (Some "test-key")
              [inr ("I'm here with you.", [])]) [])
  = (mkRun (Sim.mk Sim.fresh_store (Some "test-key") [])
       ([] ++ [ModelTurn
          ([SystemMessage AGENT_SYSTEM_PROMPT]
           ++ flat_map message_of_entry
                [mkEntry "user" "Hello"; mkEntry "system" "note";
                 mkEntry "assistant" "Hello, dear."]
           ++ [HumanMessage "I'm feeling sad"])
          (inr (AIMessage "I'm here with you." []))]),
     inr "I'm here with you.").
Proof.
  apply (run_agent_direct_answer langgraph_defaults "patient-1" "pair-1"
           "I'm feeling sad"
           [mkEntry "user" "Hello"; mkEntry "system" "note";
            mkEntry "assistant" "Hello, dear."]
           (Sim.mk Sim.fresh_store (Some "test-key")
              [inr ("I'm here with you.", [])])
           (Sim.mk Sim.fresh_store (Some "test-key") []) []
           "I'm here with you.");
    reflexivity.
Defined.

End AgentMore_Facts.
